(** * DasService: the .bit naming-service backend (src/DasService.ts)

    A shallow embedding of the class [DasService] and of the parts of the
    language it relies on: strings as sequences of code units, the regular
    expression of [isSupportedDomain], plain objects used as dictionaries
    (own properties over the members inherited from [Object.prototype]),
    thrown errors and awaited calls as an error monad. *)

From Stdlib Require Import String Ascii List Bool NArith Lia.
From stdpp Require Import base option gmap strings.

Import ListNotations.
Local Open Scope string_scope.
Local Open Scope list_scope.

(** ** Strings

    A string is a sequence of code units; the model covers the code units
    0..255, one [ascii] each.  On that range the built-ins below agree with
    the language: [toLowerCase] maps A..Z and the Latin-1 capitals
    (U+00C0..U+00DE without the multiplication sign U+00D7) 32 places up,
    and the line terminators a regular expression's dot refuses are
    U+000A and U+000D. *)

Module JsString.

Definition code (c : ascii) : N := N_of_ascii c.

Definition is_upper (c : ascii) : bool :=
  let n := code c in
  ((65 <=? n) && (n <=? 90) || (192 <=? n) && (n <=? 222) && negb (n =? 215))%N.

Definition lower_char (c : ascii) : ascii :=
  if is_upper c then ascii_of_N (code c + 32) else c.

(** [s.toLowerCase()] *)
Fixpoint toLowerCase (s : string) : string :=
  match s with
  | EmptyString => EmptyString
  | String c r => String (lower_char c) (toLowerCase r)
  end.

(** Whether some code unit of [s] is an upper-case letter. *)
Fixpoint has_upper (s : string) : bool :=
  match s with
  | EmptyString => false
  | String c r => is_upper c || has_upper r
  end.

(** [s.split(sep)] for a separator of one code unit: never an empty array,
    [split sep EmptyString] is the array holding the empty string. *)
Fixpoint split (sep : ascii) (s : string) : list string :=
  match s with
  | EmptyString => [EmptyString]
  | String c r =>
      if Ascii.eqb c sep then EmptyString :: split sep r
      else match split sep r with
           | [] => [String c EmptyString]
           | p :: ps => String c p :: ps
           end
  end.

(** [parts.join(sep)] on an array of strings. *)
Fixpoint join (sep : string) (parts : list string) : string :=
  match parts with
  | [] => EmptyString
  | [p] => p
  | p :: ps => p ++ sep ++ join sep ps
  end.

(** [s.length] as a truth value: [Boolean(s.length)]. *)
Definition nonempty (s : string) : bool :=
  match s with EmptyString => false | String _ _ => true end.

(** [s.endsWith(suffix)] *)
Definition endsWith (s suffix : string) : bool :=
  let n := String.length s in
  let m := String.length suffix in
  (m <=? n)%nat && String.eqb (substring (n - m) m s) suffix.

(** Whether the code unit [c] occurs in [s]. *)
Fixpoint occurs (c : ascii) (s : string) : bool :=
  match s with
  | EmptyString => false
  | String d r => Ascii.eqb d c || occurs c r
  end.

(** [parts.includes(x)] on an array of strings. *)
Definition includes (parts : list string) (x : string) : bool :=
  existsb (String.eqb x) parts.

End JsString.

(** ** Regular expressions

    The fragment the service uses: literals, the dot, sequence and the
    iterations, matched by derivatives.  [test] is the unanchored search of
    [RegExp.prototype.test]: some substring of the subject matches. *)

Module Regex.

Inductive regex : Type :=
| Empty                      (* matches nothing *)
| Eps                        (* matches the empty string *)
| Chr (c : ascii)            (* a literal code unit *)
| Dot                        (* any code unit but a line terminator *)
| Cat (r1 r2 : regex)
| Alt (r1 r2 : regex)
| Star (r : regex).

(** [r+] *)
Definition Plus (r : regex) : regex := Cat r (Star r).

Definition line_terminator (c : ascii) : bool :=
  (JsString.code c =? 10)%N || (JsString.code c =? 13)%N.

(** The strings an expression matches as a whole. *)
Inductive matches : regex -> string -> Prop :=
| MEps : matches Eps EmptyString
| MChr c : matches (Chr c) (String c EmptyString)
| MDot c : line_terminator c = false -> matches Dot (String c EmptyString)
| MCat r1 r2 s1 s2 :
    matches r1 s1 -> matches r2 s2 -> matches (Cat r1 r2) (s1 ++ s2)
| MAltL r1 r2 s : matches r1 s -> matches (Alt r1 r2) s
| MAltR r1 r2 s : matches r2 s -> matches (Alt r1 r2) s
| MStar0 r : matches (Star r) EmptyString
| MStarApp r s1 s2 :
    matches r s1 -> matches (Star r) s2 -> matches (Star r) (s1 ++ s2).

Fixpoint nullable (r : regex) : bool :=
  match r with
  | Empty | Chr _ | Dot => false
  | Eps | Star _ => true
  | Cat r1 r2 => nullable r1 && nullable r2
  | Alt r1 r2 => nullable r1 || nullable r2
  end.

Fixpoint deriv (c : ascii) (r : regex) : regex :=
  match r with
  | Empty | Eps => Empty
  | Chr d => if Ascii.eqb c d then Eps else Empty
  | Dot => if line_terminator c then Empty else Eps
  | Cat r1 r2 =>
      if nullable r1 then Alt (Cat (deriv c r1) r2) (deriv c r2)
      else Cat (deriv c r1) r2
  | Alt r1 r2 => Alt (deriv c r1) (deriv c r2)
  | Star r1 => Cat (deriv c r1) (Star r1)
  end.

(** Whether [r] matches some prefix of [s]. *)
Fixpoint match_prefix (r : regex) (s : string) : bool :=
  nullable r ||
  match s with
  | EmptyString => false
  | String c s' => match_prefix (deriv c r) s'
  end.

(** [r.test(s)]: a match starting at some position of [s]. *)
Fixpoint test (r : regex) (s : string) : bool :=
  match_prefix r s ||
  match s with
  | EmptyString => false
  | String _ s' => test r s'
  end.

(** The sequence of the code units of a literal. *)
Fixpoint literal (s : string) : regex :=
  match s with
  | EmptyString => Eps
  | String c s' => Cat (Chr c) (literal s')
  end.

End Regex.

(** ** The domain syntax validator *)

(** The pattern [/.+\.bit/]. *)
Definition bit_pattern : Regex.regex :=
  Regex.Cat (Regex.Plus Regex.Dot) (Regex.literal ".bit").

(** [isSupportedDomain(account)] *)
Definition isSupportedDomain (account : string) : bool :=
  Regex.test bit_pattern account &&
  forallb (fun v => JsString.nonempty v) (JsString.split "." account).

(** ** Thrown errors and awaited calls *)

Inductive ResolutionErrorCode : Type :=
| UnregisteredDomain
| RecordNotFound
| UnsupportedMethod.

(** The options object a [ResolutionError] is built with. *)
Record ResolutionErrorOptions : Type := {
  domain : string;
  recordName : option string;
  methodName : option string
}.

Inductive ConfigurationErrorCode : Type :=
| UnspecifiedUrl
| UnsupportedNetwork.

Inductive NamingServiceName : Type := DAS.

(** What a call can throw.  [TransportError] is a failure of the transport
    itself, which the service passes on as it is. *)
Inductive exn : Type :=
| ResolutionError (code : ResolutionErrorCode) (options : ResolutionErrorOptions)
| ConfigurationError (code : ConfigurationErrorCode) (method : NamingServiceName)
| Error (message : string)
| TransportError (fault : string).

(** The outcome of a call: a returned value (a fulfilled promise) or a
    thrown error (a rejected one). *)
Inductive result (A : Type) : Type :=
| Ok (a : A)
| Throw (e : exn).

Arguments Ok {A} a.
Arguments Throw {A} e.

#[global] Instance result_ret : MRet result := fun A a => Ok a.

(** [await]: the rest of the method runs on the value, an error passes through. *)
#[global] Instance result_bind : MBind result := fun A B f m =>
  match m with
  | Ok a => f a
  | Throw e => Throw e
  end.

(** ** Values and plain objects *)

(** [Boolean(o)] of an object [o]: an object is always truthy. *)
Definition Boolean {A : Type} (object : A) : bool := true.

(** The values that flow through the string-keyed interface. *)
Inductive jsval : Type :=
| VUndefined
| VNull
| VString (s : string)
| VObjectPrototype            (* the object [Object.prototype] *)
| VBuiltin (name : string).   (* the function [Object.prototype[name]] *)

(** [Boolean(v)] *)
Definition ToBoolean (v : jsval) : bool :=
  match v with
  | VUndefined | VNull => false
  | VString s => JsString.nonempty s
  | VObjectPrototype | VBuiltin _ => true
  end.

(** [a || b] *)
Definition js_or (a b : jsval) : jsval := if ToBoolean a then a else b.

(** The methods every plain object inherits from [Object.prototype]. *)
Definition Object_prototype_methods : list string :=
  [ "constructor"; "__defineGetter__"; "__defineSetter__"; "hasOwnProperty";
    "__lookupGetter__"; "__lookupSetter__"; "isPrototypeOf";
    "propertyIsEnumerable"; "toString"; "valueOf"; "toLocaleString" ].

(** Whether [k] names a member of [Object.prototype]: one of its methods or
    the accessor [__proto__]. *)
Definition inherited (k : string) : bool :=
  String.eqb k "__proto__" || JsString.includes Object_prototype_methods k.

(** Reading [k] from [Object.prototype] through an object whose prototype it is. *)
Definition Object_prototype_get (k : string) : jsval :=
  if String.eqb k "__proto__" then VObjectPrototype
  else if JsString.includes Object_prototype_methods k then VBuiltin k
  else VUndefined.

(** A dictionary: an object created by the literal [{}], its prototype
    [Object.prototype], described by its own properties. *)
Module Dict.

(** [o[k]]: the own property, else the inherited member, else [undefined]. *)
Definition get (o : gmap string jsval) (k : string) : jsval :=
  match o !! k with
  | Some v => v
  | None => Object_prototype_get k
  end.

(** [o[k] = v].  Under the name [__proto__] the assignment runs the inherited
    setter and creates no own property: the setter ignores a primitive, and
    [Object.prototype], the one object the service ever assigns under that
    name (lemma [records_proto_value]), is the prototype the dictionary
    already has. *)
Definition set (k : string) (v : jsval) (o : gmap string jsval) : gmap string jsval :=
  if String.eqb k "__proto__" then o else <[k:=v]> o.

End Dict.

(** ** The language's and the repository's other modules *)

(** [Number]: the language's conversion of a string to a number. *)
Class Builtins : Type := {
  number : Type;
  Number : string -> number
}.

(** The values of the enumeration [AccountRecordTypes] (./types/AccountData). *)
Record AccountRecordTypesEnum : Type := {
  address : string;
  profile : string;
  dweb : string;
  custom : string
}.

(** ** Wire and resolved data *)

(** A record as the indexer sends it. *)
Module WireRecord.
Record t : Type := { key : string; value : string; ttl : string }.
End WireRecord.

(** The [account_data] of a search reply. *)
Module WireAccountData.
Record t : Type := {
  account : string;
  owner_lock_args_hex : string;
  records : list WireRecord.t
}.
End WireAccountData.

Module AccountDataCell.
Record t : Type := { account_data : WireAccountData.t }.
End AccountDataCell.

(** The reply to [das_searchAccount]; [data] is absent for an unknown domain. *)
Module SearchAccountReply.
Record t : Type := { data : option AccountDataCell.t }.
End SearchAccountReply.

(** The reply to [das_getAddressAccount]: [data.account_data] lists the
    accounts of an address. *)
Module AddressAccount.
Record t : Type := { account : string }.
End AddressAccount.

Module AddressAccountCell.
Record t : Type := { account_data : list AddressAccount.t }.
End AddressAccountCell.

Module AddressAccountReply.
Record t : Type := { data : AddressAccountCell.t }.
End AddressAccountReply.

(** A record after [getAccountData] has written the derived fields onto it. *)
Module AccountRecord.
Record t `{Builtins} : Type := {
  key : string;
  value : string;
  ttl : number;
  type : string;
  strippedKey : string
}.
End AccountRecord.

Module AccountData.
Record t `{Builtins} : Type := {
  account : string;
  owner_lock_args_hex : string;
  records : list AccountRecord.t
}.
End AccountData.

(** ** The transport *)

Inductive Method : Type :=
| das_searchAccount
| das_getAddressAccount.

(** The shape the service reads a reply in, by the method requested. *)
Definition Payload (m : Method) : Type :=
  match m with
  | das_searchAccount => SearchAccountReply.t
  | das_getAddressAccount => AddressAccountReply.t
  end.

(** What the transport answers a request with: a reply, or a failure of
    its own. *)
Inductive response (A : Type) : Type :=
| Replies (a : A)
| Fails (fault : string).

Arguments Replies {A} a.
Arguments Fails {A} fault.

(** [provider.request({method, params})] *)
Record Provider : Type := {
  request : forall m : Method, list string -> response (Payload m)
}.

(** [await provider.request(...)]: a failure of the transport is thrown on
    as it is. *)
Definition await {A : Type} (r : response A) : result A :=
  match r with
  | Replies a => Ok a
  | Fails fault => Throw (TransportError fault)
  end.

(** What the service imports from modules of the repository outside
    DasService.ts: the enumeration of record types and the default
    transport [new FetchProvider(name, url)]. *)
Class Imports : Type := {
  AccountRecordTypes : AccountRecordTypesEnum;
  FetchProvider : NamingServiceName -> string -> Provider
}.

(** ** Group maps: objects keyed by [strippedKey]

    A group map starts as [{}] and is assigned records.  A record is an
    object, so the assignment under the name [__proto__] replaces the
    prototype of the map instead of creating an own property; [proto] is
    [None] while the prototype is still [Object.prototype]. *)

Module Group.

Section WithBuiltins.
Context `{Builtins}.

Record t : Type := {
  own : gmap string AccountRecord.t;
  proto : option AccountRecord.t
}.

(** What reading a member of a group map yields. *)
Inductive member : Type :=
| MRecord (r : AccountRecord.t)
| MString (s : string)
| MNumber (n : number)
| MInherited (v : jsval).

(** [{}] *)
Definition empty : t := {| own := ∅; proto := None |}.

(** [r[k]] restricted to the own properties of a record. *)
Definition record_own (r : AccountRecord.t) (k : string) : option member :=
  if String.eqb k "key" then Some (MString (AccountRecord.key r))
  else if String.eqb k "value" then Some (MString (AccountRecord.value r))
  else if String.eqb k "ttl" then Some (MNumber (AccountRecord.ttl r))
  else if String.eqb k "type" then Some (MString (AccountRecord.type r))
  else if String.eqb k "strippedKey" then Some (MString (AccountRecord.strippedKey r))
  else None.

(** [g[k]]: the own property; else, under [__proto__], the prototype; else
    what the prototype chain holds under [k]. *)
Definition get (g : t) (k : string) : member :=
  match own g !! k with
  | Some r => MRecord r
  | None =>
      match proto g with
      | Some p =>
          if String.eqb k "__proto__" then MRecord p
          else match record_own p k with
               | Some m => m
               | None => MInherited (Object_prototype_get k)
               end
      | None => MInherited (Object_prototype_get k)
      end
  end.

(** [g[k] = r] *)
Definition set (k : string) (r : AccountRecord.t) (g : t) : t :=
  if String.eqb k "__proto__" then {| own := own g; proto := Some r |}
  else {| own := <[k:=r]> (own g); proto := proto g |}.

End WithBuiltins.

End Group.

(** ** The service *)

(** The options of the constructor; an absent option is [None]. *)
Record DasSource : Type := {
  source_url : option string;
  source_network : option string;
  source_provider : option Provider
}.

(** The fields of an instance. *)
Record DasService : Type := {
  name : NamingServiceName;
  network : string;
  url : option string;
  provider : Provider
}.

(** The aggregate [account] returns. *)
Module ConstructedAccount.
Record t `{Builtins} : Type := {
  account : string;
  avatar : string;
  profile : Group.t;
  address : Group.t;
  dweb : Group.t;
  custom : Group.t;
  profiles : list AccountRecord.t;
  addresses : list AccountRecord.t;
  dwebs : list AccountRecord.t;
  customs : list AccountRecord.t;
  records : list AccountRecord.t
}.
End ConstructedAccount.

(** An optional string read as a condition: absent and empty are false. *)
Definition truthy (o : option string) : bool :=
  match o with
  | Some s => JsString.nonempty s
  | None => false
  end.

(** Modelled from the spec: [DasSupportedNetwork.guard] (./types/index), the
    membership test of the supported set, which the spec gives as mainnet,
    testnet and aggron (the networks of the class's static url table as
    well). *)
Definition DasSupportedNetwork_guard (network : string) : bool :=
  JsString.includes ["mainnet"; "testnet"; "aggron"] network.

Section Methods.
Context `{Builtins} `{Imports}.

(** [new DasService(source)] *)
Definition constructor (source : DasSource) : result DasService :=
  if negb (truthy (source_url source) || bool_decide (is_Some (source_provider source)))
  then Throw (ConfigurationError UnspecifiedUrl DAS)
  else
    let network :=
      match source_network source with
      | Some n => if JsString.nonempty n then n else "mainnet"
      | None => "mainnet"
      end in
    if negb (DasSupportedNetwork_guard network)
    then Throw (ConfigurationError UnsupportedNetwork DAS)
    else Ok {| name := DAS;
               network := network;
               url := source_url source;
               provider :=
                 match source_provider source with
                 | Some p => p
                 | None => FetchProvider DAS (default EmptyString (source_url source))
                 end |}.

Variable this : DasService.

(** [serviceName()] *)
Definition serviceName : NamingServiceName := name this.

(** [namehash(account)] *)
Definition namehash (account : string) : result string :=
  if negb (isSupportedDomain account)
  then Throw (ResolutionError UnregisteredDomain
                {| domain := account; recordName := None; methodName := None |})
  else Ok EmptyString.

(** [childhash(_parentHash, label)] *)
Definition childhash (_parentHash label : string) : result string :=
  Throw (ResolutionError UnsupportedMethod
           {| domain := label; recordName := None; methodName := Some "childhash" |}).

(** [resolver(account)] *)
Definition resolver (account : string) : result string :=
  Throw (ResolutionError UnsupportedMethod
           {| domain := account; recordName := None; methodName := Some "resolver" |}).

(** [twitter(account)]; the one method of these that throws before a
    promise exists. *)
Definition twitter (account : string) : result string :=
  Throw (ResolutionError UnsupportedMethod
           {| domain := account; recordName := None; methodName := Some "twitter" |}).

(** The loop body of [getAccountData]: the derived fields of one record.
    [split] never returns an empty array (lemma [split_cons]), so [shift]
    always takes a string off [keyParts]. *)
Definition normalize (record : WireRecord.t) : AccountRecord.t :=
  let keyParts := JsString.split "." (WireRecord.key record) in
  {| AccountRecord.key := WireRecord.key record;
     AccountRecord.value := WireRecord.value record;
     AccountRecord.ttl := Number (WireRecord.ttl record);
     AccountRecord.type := hd EmptyString keyParts;
     AccountRecord.strippedKey := JsString.join "." (tl keyParts) |}.

(** [getAccountData(account)] *)
Definition getAccountData (account : string) : result AccountData.t :=
  data ← await (request (provider this) das_searchAccount [account]);
  match SearchAccountReply.data data with
  | None =>
      Throw (ResolutionError UnregisteredDomain
               {| domain := account; recordName := None; methodName := None |})
  | Some cell =>
      let account_data := AccountDataCell.account_data cell in
      Ok {| AccountData.account := WireAccountData.account account_data;
            AccountData.owner_lock_args_hex :=
              WireAccountData.owner_lock_args_hex account_data;
            AccountData.records := map normalize (WireAccountData.records account_data) |}
  end.

(** [owner(account)] *)
Definition owner (account : string) : result string :=
  accountData ← getAccountData account;
  mret (AccountData.owner_lock_args_hex accountData).

(** [allRecords(account)] *)
Definition allRecords (account : string) : result (gmap string jsval) :=
  data ← getAccountData account;
  if Boolean data
  then mret (fold_left
               (fun returnee record =>
                  Dict.set (JsString.toLowerCase (AccountRecord.key record))
                           (VString (AccountRecord.value record)) returnee)
               (AccountData.records data) ∅)
  else mret ∅.

(** [record(account, key)] *)
Definition record (account key : string) : result jsval :=
  let key := JsString.toLowerCase key in
  all ← allRecords account;
  let returnee := Dict.get all key in
  if negb (ToBoolean returnee)
  then Throw (ResolutionError RecordNotFound
                {| domain := account; recordName := Some key; methodName := None |})
  else Ok returnee.

(** [records(account, keys)] *)
Definition records (account : string) (keys : list string) : result (gmap string jsval) :=
  records ← allRecords account;
  mret (fold_left
          (fun returnee key =>
             Dict.set key (js_or (Dict.get records key) (VString EmptyString)) returnee)
          keys ∅).

(** [allReverse(address)] *)
Definition allReverse (address : string) : result (list string) :=
  data ← await (request (provider this) das_getAddressAccount [address]);
  let accounts := AddressAccountCell.account_data (AddressAccountReply.data data) in
  mret (map AddressAccount.account accounts).

(** [accounts[0]]: the first element, [undefined] on an empty array. *)
Definition first (accounts : list string) : jsval :=
  match accounts with
  | [] => VUndefined
  | a :: _ => VString a
  end.

(** [reverse(address, currencyTicker)] *)
Definition reverse (address currencyTicker : string) : result jsval :=
  if negb (JsString.includes ["ETH"; "CKB"] currencyTicker)
  then Throw (Error "Das does not support any chain other than CKB and ETH")
  else
    accounts ← allReverse address;
    mret (first accounts).

(** [isRegistered(account)] *)
Definition isRegistered (account : string) : result bool :=
  accountData ← getAccountData account;
  mret (Boolean accountData).

(** [recordsByKey(account, key)] *)
Definition recordsByKey (account key : string) : result (list AccountRecord.t) :=
  accountData ← getAccountData account;
  mret (List.filter (fun record => String.eqb (AccountRecord.key record) key)
                    (AccountData.records accountData)).

(** [addr(account, ticker)] *)
Definition addr (account ticker : string) : result jsval :=
  record account ("address." ++ ticker).

(** The helper of [account]: the group map of a list of records. *)
Definition resolveOneFromRecords (records : list AccountRecord.t) : Group.t :=
  fold_left
    (fun profile record => Group.set (AccountRecord.strippedKey record) record profile)
    records Group.empty.

(** [records.filter(record => record.type === tag)] *)
Definition of_type (tag : string) (records : list AccountRecord.t) : list AccountRecord.t :=
  List.filter (fun record => String.eqb (AccountRecord.type record) tag) records.

(** [account(account)] *)
Definition account (account : string) : result ConstructedAccount.t :=
  accountData ← getAccountData account;
  let profiles := of_type (profile AccountRecordTypes) (AccountData.records accountData) in
  let addresses := of_type (address AccountRecordTypes) (AccountData.records accountData) in
  let dwebs := of_type (dweb AccountRecordTypes) (AccountData.records accountData) in
  let customs := of_type (custom AccountRecordTypes) (AccountData.records accountData) in
  mret {| ConstructedAccount.account := AccountData.account accountData;
          ConstructedAccount.avatar := "https://identicons.da.systems/identicon/" ++ account;
          ConstructedAccount.profile := resolveOneFromRecords profiles;
          ConstructedAccount.address := resolveOneFromRecords addresses;
          ConstructedAccount.dweb := resolveOneFromRecords dwebs;
          ConstructedAccount.custom := resolveOneFromRecords customs;
          ConstructedAccount.profiles := profiles;
          ConstructedAccount.addresses := addresses;
          ConstructedAccount.dwebs := dwebs;
          ConstructedAccount.customs := customs;
          ConstructedAccount.records := AccountData.records accountData |}.

End Methods.

(** ** The flattened map, in the words of the specification

    The value the flattened, case-insensitive map of a record list holds
    under a lower-cased key: that of the last record whose lower-cased key
    it is. *)

Fixpoint flattened `{Builtins} (records : list AccountRecord.t) (k : string) : option string :=
  match records with
  | [] => None
  | r :: rest =>
      match flattened rest k with
      | Some v => Some v
      | None =>
          if String.eqb (JsString.toLowerCase (AccountRecord.key r)) k
          then Some (AccountRecord.value r)
          else None
      end
  end.

(** A call fails with a resolution error of the kind [code]. *)
Definition fails_with {A : Type} (r : result A) (code : ResolutionErrorCode) : Prop :=
  exists options, r = Throw (ResolutionError code options).

(** A key cut at its first dot, stated on the strings alone: [type] is
    free of dots, and the key is [type], a dot and [strippedKey], or has no
    dot at all, is [type] itself and leaves [strippedKey] empty. *)
Definition cut_at_first_dot (key type strippedKey : string) : Prop :=
  JsString.occurs "." type = false /\
  (key = (type ++ "." ++ strippedKey)%string \/
   (JsString.occurs "." key = false /\ type = key /\ strippedKey = EmptyString)).

(** The resolved record [r] of the wire record [w], in the words of the
    specification: key and value as sent, the number of the wire [ttl],
    the first dot-separated segment of the key as [type], the remaining
    segments rejoined with dots as [strippedKey]; and, apart from the
    segments, the key cut at its first dot into [type] and [strippedKey]. *)
Definition resolved_from `{Builtins} (w : WireRecord.t) (r : AccountRecord.t) : Prop :=
  AccountRecord.key r = WireRecord.key w /\
  AccountRecord.value r = WireRecord.value w /\
  AccountRecord.ttl r = Number (WireRecord.ttl w) /\
  (exists rest,
     JsString.split "." (WireRecord.key w) = AccountRecord.type r :: rest /\
     AccountRecord.strippedKey r = JsString.join "." rest) /\
  cut_at_first_dot (WireRecord.key w) (AccountRecord.type r) (AccountRecord.strippedKey r).

(** ** A sample indexer, to run the service on *)

Module Sample.

Fixpoint digits (acc : N) (s : string) : option N :=
  match s with
  | EmptyString => Some acc
  | String c r =>
      let n := JsString.code c in
      if ((48 <=? n) && (n <=? 57))%N then digits (10 * acc + (n - 48)) r else None
  end.

(** A stand-in for [Number] that reads the strings of one to fifteen
    decimal digits, where the conversion is exact, and leaves every other
    string uninterpreted ([None]). *)
Definition builtins : Builtins :=
  {| number := option N;
     Number := fun s =>
       match s with
       | EmptyString => None
       | _ => if (String.length s <=? 15)%nat then digits 0 s else None
       end |}.

Definition wire (key value ttl : string) : WireRecord.t :=
  {| WireRecord.key := key; WireRecord.value := value; WireRecord.ttl := ttl |}.

Definition alice : WireAccountData.t :=
  {| WireAccountData.account := "alice.bit";
     WireAccountData.owner_lock_args_hex := "0x05a11ce";
     WireAccountData.records :=
       [ wire "profile.twitter" "old" "300";
         wire "address.ETH" "0xa11ce" "300";
         wire "profile.twitter" "new" "300";
         wire "custom_key.note" EmptyString "60" ] |}.

(** An indexer that knows one account and one address. *)
Definition indexer : Provider :=
  {| request := fun m =>
       match m return list string -> response (Payload m) with
       | das_searchAccount => fun params =>
           Replies {| SearchAccountReply.data :=
                        if JsString.includes params "alice.bit"
                        then Some {| AccountDataCell.account_data := alice |}
                        else None |}
       | das_getAddressAccount => fun params =>
           Replies {| AddressAccountReply.data :=
                        {| AddressAccountCell.account_data :=
                             if JsString.includes params "0xa11ce"
                             then [ {| AddressAccount.account := "alice.bit" |} ]
                             else [] |} |}
       end |}.

(** An account whose keys have every shape: several dots, none, one at
    either end, two in a row, and the empty key. *)
Definition shapes : WireAccountData.t :=
  {| WireAccountData.account := "shapes.bit";
     WireAccountData.owner_lock_args_hex := "0x05";
     WireAccountData.records :=
       [ wire "address.ETH" "v" "300";
         wire "a.b.c" "v" "300";
         wire "nodot" "v" "300";
         wire ".lead" "v" "300";
         wire "trail." "v" "300";
         wire "a..b" "v" "300";
         wire EmptyString "v" "300" ] |}.

(** An indexer that answers every search with that account. *)
Definition shapes_indexer : Provider :=
  {| request := fun m =>
       match m return list string -> response (Payload m) with
       | das_searchAccount => fun _ =>
           Replies {| SearchAccountReply.data :=
                        Some {| AccountDataCell.account_data := shapes |} |}
       | das_getAddressAccount => fun _ =>
           Replies {| AddressAccountReply.data :=
                        {| AddressAccountCell.account_data := [] |} |}
       end |}.

Definition shapes_service : DasService :=
  {| name := DAS;
     network := "mainnet";
     url := None;
     provider := shapes_indexer |}.

(** A transport that is down. *)
Definition offline : Provider :=
  {| request := fun m _ => Fails "offline" |}.

Definition imports : Imports :=
  {| AccountRecordTypes :=
       {| address := "address"; profile := "profile"; dweb := "dweb"; custom := "custom" |};
     FetchProvider := fun _ _ => offline |}.

Definition service : DasService :=
  {| name := DAS;
     network := "mainnet";
     url := Some "https://indexer.da.systems";
     provider := indexer |}.

(** The sample account as [getAccountData] resolves it. *)
Definition resolved : @AccountData.t builtins :=
  {| AccountData.account := "alice.bit";
     AccountData.owner_lock_args_hex := "0x05a11ce";
     AccountData.records := map (@normalize builtins) (WireAccountData.records alice) |}.

End Sample.

(** * Properties *)

(** ** Strings *)

Lemma split_cons (sep : ascii) (s : string) :
  exists p ps, JsString.split sep s = p :: ps.
Proof.
  induction s as [|c r IH]; simpl.
  - eauto.
  - destruct (Ascii.eqb c sep); [eauto|].
    destruct IH as (p & ps & ->). eauto.
Qed.

(** Joining the segments of a string with the separator gives it back. *)
Lemma join_split (sep : ascii) (s : string) :
  JsString.join (String sep EmptyString) (JsString.split sep s) = s.
Proof.
  induction s as [|c r IH]; simpl; [reflexivity|].
  destruct (split_cons sep r) as (p & ps & Hr).
  destruct (Ascii.eqb_spec c sep) as [->|Hne]; rewrite Hr in *.
  - change (String sep (JsString.join (String sep EmptyString) (p :: ps)) = String sep r).
    now rewrite IH.
  - destruct ps as [|q qs]; simpl in *; now rewrite <- IH.
Qed.

(** No segment holds the separator. *)
Lemma split_no_sep (sep : ascii) (s : string) :
  Forall (fun p => JsString.occurs sep p = false) (JsString.split sep s).
Proof.
  induction s as [|c r IH]; simpl.
  - constructor; [reflexivity|constructor].
  - destruct (split_cons sep r) as (p & ps & Hr).
    destruct (Ascii.eqb c sep) eqn:Hc; rewrite Hr in *.
    + constructor; [reflexivity|exact IH].
    + inversion IH as [|? ? Hp Hps]; subst.
      constructor; [|exact Hps]. simpl. now rewrite Hc.
Qed.

Lemma split_without_sep (sep : ascii) (s : string) :
  JsString.occurs sep s = false -> JsString.split sep s = [s].
Proof.
  induction s as [|c r IH]; simpl; [reflexivity|].
  intros [Hc Hr]%orb_false_iff. now rewrite Hc, (IH Hr).
Qed.

Lemma occurs_app_sep (sep : ascii) (a b : string) :
  JsString.occurs sep (a ++ String sep b)%string = true.
Proof.
  induction a as [|c a IH].
  - simpl. now rewrite Ascii.eqb_refl.
  - change (String c a ++ String sep b)%string with (String c (a ++ String sep b)).
    simpl. rewrite IH. apply orb_true_r.
Qed.

(** A string is cut at its first dot in one way only. *)
Lemma cut_at_first_dot_unique (key t1 s1 t2 s2 : string) :
  cut_at_first_dot key t1 s1 -> cut_at_first_dot key t2 s2 -> t1 = t2 /\ s1 = s2.
Proof.
  assert (Hcut : forall a b c d,
    JsString.occurs "." a = false -> JsString.occurs "." c = false ->
    (a ++ "." ++ b)%string = (c ++ "." ++ d)%string -> a = c /\ b = d).
  { induction a as [|x a IH]; intros b [|y c] d Ha Hc Heq.
    - change (String "." b = String "." d) in Heq. injection Heq as <-. now split.
    - change (String "." b = String y (c ++ "." ++ d)%string) in Heq.
      injection Heq as Hy _. subst y. discriminate Hc.
    - change (String x (a ++ "." ++ b)%string = String "." d) in Heq.
      injection Heq as Hx _. subst x. discriminate Ha.
    - change (String x (a ++ "." ++ b) = String y (c ++ "." ++ d))%string in Heq.
      injection Heq as -> Heq. simpl in Ha, Hc.
      apply orb_false_iff in Ha as [_ Ha]. apply orb_false_iff in Hc as [_ Hc].
      destruct (IH b c d Ha Hc Heq) as [-> ->]. now split. }
  intros [Ht1 [H1|(Hno1 & -> & ->)]] [Ht2 [H2|(Hno2 & -> & ->)]].
  - subst key. now apply Hcut.
  - subst key. pose proof (occurs_app_sep "." t1 s1) as Hdot.
    change (JsString.occurs "." (t1 ++ "." ++ s1)%string = true) in Hdot. congruence.
  - subst key. pose proof (occurs_app_sep "." t2 s2) as Hdot.
    change (JsString.occurs "." (t2 ++ "." ++ s2)%string = true) in Hdot. congruence.
  - now split.
Qed.

Lemma lower_char_not_upper (c : ascii) :
  JsString.is_upper (JsString.lower_char c) = false.
Proof. destruct c as [[] [] [] [] [] [] [] []]; reflexivity. Qed.

(** A lower-cased string holds no upper-case letter. *)
Lemma toLowerCase_no_upper (s : string) :
  JsString.has_upper (JsString.toLowerCase s) = false.
Proof.
  induction s as [|c r IH]; simpl; [reflexivity|].
  now rewrite lower_char_not_upper, IH.
Qed.

Lemma toLowerCase_neq_upper (s k : string) :
  JsString.has_upper k = true -> JsString.toLowerCase s <> k.
Proof.
  intros Hk <-. rewrite toLowerCase_no_upper in Hk. discriminate.
Qed.

Lemma lower_char_fixed (c : ascii) :
  JsString.is_upper c = false -> JsString.lower_char c = c.
Proof. unfold JsString.lower_char. now intros ->. Qed.

(** Lower-casing leaves a string without upper-case letters as it is. *)
Lemma toLowerCase_fixed (s : string) :
  JsString.has_upper s = false -> JsString.toLowerCase s = s.
Proof.
  induction s as [|c r IH]; simpl; [reflexivity|].
  intros [Hc Hr]%orb_false_iff. now rewrite lower_char_fixed, IH.
Qed.

Lemma toLowerCase_idempotent (s : string) :
  JsString.toLowerCase (JsString.toLowerCase s) = JsString.toLowerCase s.
Proof. apply toLowerCase_fixed, toLowerCase_no_upper. Qed.

Lemma includes_In (parts : list string) (x : string) :
  JsString.includes parts x = true <-> In x parts.
Proof.
  unfold JsString.includes. rewrite existsb_exists. split.
  - intros (y & Hy & ->%String.eqb_eq). exact Hy.
  - intros Hx. exists x. split; [exact Hx|apply String.eqb_refl].
Qed.

(** ** Regular expressions: the matcher against the matched strings *)

Section RegexFacts.

#[local] Arguments String.append !s1 s2 : simpl nomatch.

Lemma append_nil_r (s : string) : (s ++ EmptyString)%string = s.
Proof. induction s as [|c r IH]; simpl; [reflexivity|now rewrite IH]. Qed.

Lemma append_assoc (s1 s2 s3 : string) :
  ((s1 ++ s2) ++ s3)%string = (s1 ++ s2 ++ s3)%string.
Proof. induction s1 as [|c r IH]; simpl; [reflexivity|now rewrite IH]. Qed.

Lemma append_eq_nil (s1 s2 : string) :
  (s1 ++ s2)%string = EmptyString -> s1 = EmptyString /\ s2 = EmptyString.
Proof. destruct s1; simpl; [intros ->; now split|discriminate]. Qed.

Lemma append_eq_cons (s1 s2 s : string) (c : ascii) :
  (s1 ++ s2)%string = String c s ->
  (s1 = EmptyString /\ s2 = String c s) \/
  (exists s1', s1 = String c s1' /\ s = (s1' ++ s2)%string).
Proof.
  destruct s1 as [|d s1']; simpl.
  - intros ->. now left.
  - intros [= -> <-]. right. eauto.
Qed.

Lemma nullable_matches (r : Regex.regex) :
  Regex.nullable r = true <-> Regex.matches r EmptyString.
Proof.
  split.
  - induction r; simpl; intros Hn; try discriminate.
    + constructor.
    + apply andb_true_iff in Hn as [H1 H2].
      change EmptyString with (EmptyString ++ EmptyString)%string. constructor; auto.
    + apply orb_true_iff in Hn as [H1|H2];
        [apply Regex.MAltL|apply Regex.MAltR]; auto.
    + constructor.
  - remember EmptyString as s eqn:Hs. induction 1; simpl; try discriminate; auto.
    + apply append_eq_nil in Hs as [-> ->]. rewrite IHmatches1, IHmatches2; auto.
    + now rewrite IHmatches.
    + rewrite IHmatches; auto. apply orb_true_r.
Qed.

(** The derivative by [c] matches what is left of a match that starts
    with [c]. *)
Lemma deriv_matches (c : ascii) (r : Regex.regex) (s : string) :
  Regex.matches (Regex.deriv c r) s <-> Regex.matches r (String c s).
Proof.
  split.
  - revert s. induction r; simpl; intros s Hm.
    + inversion Hm.
    + inversion Hm.
    + destruct (Ascii.eqb_spec c c0) as [->|_]; inversion Hm; subst. constructor.
    + destruct (Regex.line_terminator c) eqn:Hc; inversion Hm; subst. now constructor.
    + assert (Hcat : forall t, Regex.matches (Regex.Cat (Regex.deriv c r1) r2) t ->
                               Regex.matches (Regex.Cat r1 r2) (String c t)).
      { intros t Ht. inversion Ht; subst.
        change (String c (s1 ++ s2)) with (String c s1 ++ s2)%string.
        constructor; auto. }
      destruct (Regex.nullable r1) eqn:Hn; [|now apply Hcat].
      inversion Hm; subst; [now apply Hcat|].
      change (String c s) with (EmptyString ++ String c s)%string.
      constructor; [now apply nullable_matches|auto].
    + inversion Hm; subst; [apply Regex.MAltL|apply Regex.MAltR]; auto.
    + inversion Hm; subst.
      change (String c (s1 ++ s2)) with (String c s1 ++ s2)%string.
      constructor; auto.
  - remember (String c s) as t eqn:Ht. intros Hm. revert c s Ht.
    induction Hm; intros d t Ht; simpl; try discriminate.
    + injection Ht as <- <-. rewrite Ascii.eqb_refl. constructor.
    + injection Ht as <- <-. rewrite H. constructor.
    + apply append_eq_cons in Ht as [[-> ->]|(s1' & -> & ->)].
      * replace (Regex.nullable r1) with true
          by (symmetry; now apply nullable_matches).
        apply Regex.MAltR. now apply IHHm2.
      * assert (Hcat : Regex.matches (Regex.Cat (Regex.deriv d r1) r2) (s1' ++ s2)%string)
          by (constructor; [now apply IHHm1|assumption]).
        destruct (Regex.nullable r1); [now apply Regex.MAltL|assumption].
    + apply Regex.MAltL. now apply IHHm.
    + apply Regex.MAltR. now apply IHHm.
    + apply append_eq_cons in Ht as [[-> ->]|(s1' & -> & ->)].
      * now apply IHHm2.
      * constructor; [now apply IHHm1|assumption].
Qed.

(** [match_prefix]: some prefix of the subject is matched. *)
Lemma match_prefix_spec (r : Regex.regex) (s : string) :
  Regex.match_prefix r s = true <->
  exists s1 s2, s = (s1 ++ s2)%string /\ Regex.matches r s1.
Proof.
  revert r. induction s as [|c s IH]; intros r; simpl.
  - rewrite orb_false_r, nullable_matches. split.
    + intros Hm. exists EmptyString, EmptyString. now split.
    + intros (s1 & s2 & Hs & Hm). symmetry in Hs.
      apply append_eq_nil in Hs as [-> _]. exact Hm.
  - rewrite orb_true_iff, nullable_matches, IH. split.
    + intros [Hm|(s1 & s2 & -> & Hm)].
      * exists EmptyString, (String c s). now split.
      * exists (String c s1), s2. split; [reflexivity|now apply deriv_matches].
    + intros (s1 & s2 & Hs & Hm). symmetry in Hs.
      apply append_eq_cons in Hs as [[-> _]|(s1' & -> & ->)].
      * now left.
      * right. exists s1', s2. split; [reflexivity|now apply deriv_matches].
Qed.

(** [test]: some substring of the subject is matched. *)
Lemma test_spec (r : Regex.regex) (s : string) :
  Regex.test r s = true <->
  exists s0 s1 s2, s = (s0 ++ s1 ++ s2)%string /\ Regex.matches r s1.
Proof.
  induction s as [|c s IH]; cbn [Regex.test].
  - rewrite orb_false_r, match_prefix_spec. split.
    + intros (s1 & s2 & Hs & Hm). exists EmptyString, s1, s2. now split.
    + intros (s0 & s1 & s2 & Hs & Hm). symmetry in Hs.
      apply append_eq_nil in Hs as [-> Hs]. eauto.
  - rewrite orb_true_iff, match_prefix_spec, IH. split.
    + intros [(s1 & s2 & Hs & Hm)|(s0 & s1 & s2 & -> & Hm)].
      * exists EmptyString, s1, s2. now split.
      * exists (String c s0), s1, s2. now split.
    + intros (s0 & s1 & s2 & Hs & Hm). symmetry in Hs.
      apply append_eq_cons in Hs as [[-> Hs]|(s0' & -> & ->)]; [left|right]; eauto.
Qed.

Lemma matches_Cat_inv (r1 r2 : Regex.regex) (s : string) :
  Regex.matches (Regex.Cat r1 r2) s ->
  exists s1 s2, s = (s1 ++ s2)%string /\ Regex.matches r1 s1 /\ Regex.matches r2 s2.
Proof. inversion 1; subst; eauto. Qed.

Lemma matches_Dot_inv (s : string) :
  Regex.matches Regex.Dot s ->
  exists c, s = String c EmptyString /\ Regex.line_terminator c = false.
Proof. inversion 1; subst; eauto. Qed.

Lemma matches_literal (lit s : string) :
  Regex.matches (Regex.literal lit) s <-> s = lit.
Proof.
  revert s. induction lit as [|c lit IH]; intros s; simpl.
  - split; [now inversion 1|intros ->; constructor].
  - split.
    + inversion 1 as [| | |? ? ? ? Hc Hl| | | |]; subst.
      inversion Hc; subst. apply IH in Hl as ->. reflexivity.
    + intros ->. change (String c lit) with (String c EmptyString ++ lit)%string.
      constructor; [constructor|now apply IH].
Qed.

(** A match of [.*] after a code unit that is no line terminator ends in
    a code unit that is none. *)
Lemma matches_star_dot_last (s : string) :
  Regex.matches (Regex.Star Regex.Dot) s ->
  forall d, Regex.line_terminator d = false ->
  exists w c, String d s = (w ++ String c EmptyString)%string /\
              Regex.line_terminator c = false.
Proof.
  remember (Regex.Star Regex.Dot) as r eqn:Hr. induction 1; try discriminate.
  - intros d Hd. exists EmptyString, d. now split.
  - injection Hr as ->. intros d Hd.
    match goal with Hm : Regex.matches Regex.Dot _ |- _ => inversion Hm as [| |e He| | | | |]; subst end.
    destruct (IHmatches2 eq_refl e He) as (w & c & Hw & Hc).
    exists (String d w), c. simpl. now rewrite <- Hw.
Qed.

(** The pattern of [isSupportedDomain] finds a match exactly in the
    strings that hold [.bit] after a code unit that is no line terminator. *)
Lemma test_bit_pattern (s : string) :
  Regex.test bit_pattern s = true <->
  exists p c q, s = (p ++ String c (".bit" ++ q))%string /\
                Regex.line_terminator c = false.
Proof.
  rewrite test_spec. split.
  - intros (s0 & s1 & s2 & -> & Hm). unfold bit_pattern, Regex.Plus in Hm.
    apply matches_Cat_inv in Hm as (w & lit & -> & Hw & Hlit).
    apply (matches_literal ".bit") in Hlit as ->.
    apply matches_Cat_inv in Hw as (first & rest & -> & Hd & Hrest).
    apply matches_Dot_inv in Hd as (d & -> & Hnl).
    destruct (matches_star_dot_last rest Hrest d Hnl) as (pre & e & Hpre & He).
    exists (s0 ++ pre)%string, e, s2. split; [|exact He].
    change (String d EmptyString ++ rest)%string with (String d rest). rewrite Hpre.
    now rewrite !append_assoc.
  - intros (p & c & q & -> & Hc). exists p, (String c ".bit"), q. split; [reflexivity|].
    change (String c ".bit") with ((String c EmptyString ++ EmptyString) ++ ".bit")%string.
    constructor; [|now apply (matches_literal ".bit")].
    constructor; [now constructor|constructor].
Qed.

(** What [isSupportedDomain] accepts: the strings that hold [.bit] after a
    code unit that is no line terminator, anywhere, and have no empty
    label. *)
Lemma isSupportedDomain_spec (account : string) :
  isSupportedDomain account = true <->
  (exists p c q, account = (p ++ String c (".bit" ++ q))%string /\
                 Regex.line_terminator c = false) /\
  Forall (fun label => label <> EmptyString) (JsString.split "." account).
Proof.
  unfold isSupportedDomain. rewrite andb_true_iff, test_bit_pattern, forallb_forall.
  rewrite List.Forall_forall. split; intros [Hp Hl]; (split; [exact Hp|]); intros label Hin.
  - specialize (Hl label Hin). now destruct label.
  - specialize (Hl label Hin). now destruct label.
Qed.

(** A string that ends in [.bit] after a code unit that is no line
    terminator and has no empty label is accepted. *)
Lemma isSupportedDomain_suffix (w : string) (c : ascii) :
  Regex.line_terminator c = false ->
  Forall (fun label => label <> EmptyString)
         (JsString.split "." (w ++ String c ".bit")%string) ->
  isSupportedDomain (w ++ String c ".bit")%string = true.
Proof.
  intros Hc Hlabels. unfold isSupportedDomain. apply andb_true_iff. split.
  - apply test_bit_pattern. exists w, c, EmptyString. now split.
  - apply forallb_forall. intros label Hin.
    rewrite List.Forall_forall in Hlabels. specialize (Hlabels label Hin).
    now destruct label.
Qed.

End RegexFacts.

(** ** The service *)

Section Properties.
Context `{Builtins} `{Imports}.
Variable this : DasService.

(** The key is its type alone when it holds no dot, and otherwise its type,
    a dot and its stripped key. *)
Lemma normalize_key (w : WireRecord.t) :
  JsString.occurs "." (AccountRecord.type (normalize w)) = false /\
  WireRecord.key w =
    if JsString.occurs "." (WireRecord.key w)
    then (AccountRecord.type (normalize w) ++ "." ++
          AccountRecord.strippedKey (normalize w))%string
    else AccountRecord.type (normalize w).
Proof.
  unfold normalize; simpl.
  pose proof (join_split "." (WireRecord.key w)) as Hj.
  pose proof (split_no_sep "." (WireRecord.key w)) as Hn.
  destruct (split_cons "." (WireRecord.key w)) as (p & ps & Hs).
  rewrite Hs in *. simpl hd. simpl tl.
  inversion Hn as [|? ? Hp Hps]; subst. split; [exact Hp|].
  destruct ps as [|q qs].
  - simpl in Hj. rewrite <- Hj. now rewrite Hp.
  - change (JsString.join "." (p :: q :: qs))
      with (p ++ "." ++ JsString.join "." (q :: qs))%string in Hj.
    rewrite <- Hj.
    assert (Hocc : forall a b, JsString.occurs "." (a ++ "." ++ b)%string = true).
    { clear. induction a as [|c a IH]; intros b; simpl; [reflexivity|].
      rewrite IH. apply orb_true_r. }
    now rewrite Hocc.
Qed.

(** The loop body of [getAccountData] cuts the key at its first dot. *)
Lemma normalize_cut_at_first_dot (w : WireRecord.t) :
  cut_at_first_dot (WireRecord.key w)
                   (AccountRecord.type (normalize w))
                   (AccountRecord.strippedKey (normalize w)).
Proof.
  destruct (normalize_key w) as [Htype Hkey]. split; [exact Htype|].
  destruct (JsString.occurs "." (WireRecord.key w)) eqn:Hdot.
  - left. exact Hkey.
  - right. split; [reflexivity|]. split; [now symmetry|].
    unfold normalize; simpl. now rewrite (split_without_sep _ _ Hdot).
Qed.

Lemma normalize_resolved_from (w : WireRecord.t) : resolved_from w (normalize w).
Proof.
  unfold resolved_from. do 3 (split; [reflexivity|]).
  split; [|apply normalize_cut_at_first_dot].
  unfold normalize; simpl.
  destruct (split_cons "." (WireRecord.key w)) as (p & ps & Hs).
  rewrite Hs. simpl. eauto.
Qed.

(** What [getAccountData] does, by the answer of the transport. *)
Lemma getAccountData_cases (account : string) :
  getAccountData this account =
    match request (provider this) das_searchAccount [account] with
    | Fails fault => Throw (TransportError fault)
    | Replies reply =>
        match SearchAccountReply.data reply with
        | None =>
            Throw (ResolutionError UnregisteredDomain
                     {| domain := account; recordName := None; methodName := None |})
        | Some cell =>
            Ok {| AccountData.account :=
                    WireAccountData.account (AccountDataCell.account_data cell);
                  AccountData.owner_lock_args_hex :=
                    WireAccountData.owner_lock_args_hex (AccountDataCell.account_data cell);
                  AccountData.records :=
                    map normalize (WireAccountData.records (AccountDataCell.account_data cell)) |}
        end
    end.
Proof.
  unfold getAccountData.
  destruct (request (provider this) das_searchAccount [account]) as [reply|fault];
    reflexivity.
Qed.

(** C4. [getAccountData] fails with [UnregisteredDomain] exactly when the
    transport answers and its reply carries no [data]; when the reply
    carries data it returns the account with, record by record in the
    order of the reply, the key and the value as sent, [ttl] the number of
    the wire string, [type] the first dot-separated segment of the key and
    [strippedKey] the remaining segments rejoined with dots: the key cut
    at its first dot, [type] what stands before it and [strippedKey] what
    stands after it, the whole key and nothing when there is no dot. *)
Theorem getAccountData_resolves (account : string) :
  (fails_with (getAccountData this account) UnregisteredDomain <->
   exists reply,
     request (provider this) das_searchAccount [account] = Replies reply /\
     SearchAccountReply.data reply = None) /\
  (forall reply cell,
     request (provider this) das_searchAccount [account] = Replies reply ->
     SearchAccountReply.data reply = Some cell ->
     exists data,
       getAccountData this account = Ok data /\
       AccountData.account data =
         WireAccountData.account (AccountDataCell.account_data cell) /\
       AccountData.owner_lock_args_hex data =
         WireAccountData.owner_lock_args_hex (AccountDataCell.account_data cell) /\
       Forall2 resolved_from
         (WireAccountData.records (AccountDataCell.account_data cell))
         (AccountData.records data)).
Proof.
  rewrite getAccountData_cases. split; [split|].
  - intros [options Hthrow].
    destruct (request (provider this) das_searchAccount [account]) as [reply|fault];
      [|discriminate].
    exists reply. split; [reflexivity|].
    destruct (SearchAccountReply.data reply); [discriminate|reflexivity].
  - intros (reply & -> & ->). eexists. reflexivity.
  - intros reply cell -> ->. eexists. split; [reflexivity|]. simpl.
    split; [reflexivity|]. split; [reflexivity|].
    induction (WireAccountData.records (AccountDataCell.account_data cell)) as [|w ws IH];
      simpl; constructor; [apply normalize_resolved_from|exact IH].
Qed.

(** [isRegistered] answers [true] on resolved data and throws what
    [getAccountData] throws. *)
Lemma isRegistered_cases (account : string) :
  isRegistered this account =
    match getAccountData this account with
    | Ok _ => Ok true
    | Throw e => Throw e
    end.
Proof.
  unfold isRegistered. destruct (getAccountData this account); reflexivity.
Qed.

(** [isRegistered] never answers [false]. *)
Lemma isRegistered_not_false (account : string) :
  isRegistered this account <> Ok false.
Proof.
  rewrite isRegistered_cases. destruct (getAccountData this account); discriminate.
Qed.

(** C9. [resolver], [twitter] and [childhash] throw [UnsupportedMethod] with
    the domain they were given ([childhash]: its label) and their own name,
    whatever the input, and so return no value. *)
Theorem capability_stubs_unsupported (account parentHash label : string) :
  resolver account =
    Throw (ResolutionError UnsupportedMethod
             {| domain := account; recordName := None; methodName := Some "resolver" |}) /\
  twitter account =
    Throw (ResolutionError UnsupportedMethod
             {| domain := account; recordName := None; methodName := Some "twitter" |}) /\
  childhash parentHash label =
    Throw (ResolutionError UnsupportedMethod
             {| domain := label; recordName := None; methodName := Some "childhash" |}) /\
  (forall v, resolver account <> Ok v) /\
  (forall v, twitter account <> Ok v) /\
  (forall v, childhash parentHash label <> Ok v).
Proof.
  unfold resolver, twitter, childhash. repeat split; discriminate.
Qed.

(** [reverse] with a ticker other than ETH and CKB. *)
Lemma reverse_unsupported_currency (address currencyTicker : string) :
  currencyTicker <> "ETH" -> currencyTicker <> "CKB" ->
  reverse this address currencyTicker =
    Throw (Error "Das does not support any chain other than CKB and ETH").
Proof.
  intros Heth Hckb. unfold reverse.
  destruct (JsString.includes ["ETH"; "CKB"] currencyTicker) eqn:Hin; [|reflexivity].
  apply includes_In in Hin. simpl in Hin. intuition congruence.
Qed.

(** [reverse] with the ticker ETH or CKB: the first account of the
    address, [undefined] when it has none. *)
Lemma reverse_supported_currency (address currencyTicker : string) :
  currencyTicker = "ETH" \/ currencyTicker = "CKB" ->
  reverse this address currencyTicker =
    match allReverse this address with
    | Ok accounts => Ok (first accounts)
    | Throw e => Throw e
    end.
Proof.
  intros Hin. unfold reverse.
  replace (JsString.includes ["ETH"; "CKB"] currencyTicker) with true.
  - simpl. destruct (allReverse this address); reflexivity.
  - symmetry. apply includes_In. simpl. intuition.
Qed.

(** *** Dictionaries *)

Lemma inherited_false (k : string) :
  inherited k = false -> k <> "__proto__" /\ Object_prototype_get k = VUndefined.
Proof.
  unfold inherited, Object_prototype_get.
  intros [Hp Hm]%orb_false_iff. rewrite Hp, Hm.
  split; [|reflexivity]. intros ->. discriminate.
Qed.

Lemma Dict_set_lookup (k j : string) (v : jsval) (o : gmap string jsval) :
  j <> "__proto__" ->
  Dict.set k v o !! j = if String.eqb k j then Some v else o !! j.
Proof.
  intros Hj. unfold Dict.set.
  destruct (String.eqb_spec k "__proto__") as [->|Hk].
  - destruct (String.eqb_spec "__proto__" j); [congruence|reflexivity].
  - destruct (String.eqb_spec k j) as [->|Hkj].
    + apply lookup_insert_eq.
    + now apply lookup_insert_ne.
Qed.

(** No assignment gives a dictionary an own property [__proto__]. *)
Lemma Dict_set_proto (k : string) (v : jsval) (o : gmap string jsval) :
  Dict.set k v o !! "__proto__" = o !! "__proto__".
Proof.
  unfold Dict.set. destruct (String.eqb_spec k "__proto__") as [->|Hk]; [reflexivity|].
  now apply lookup_insert_ne.
Qed.

(** The loop of [allRecords] builds the flattened map. *)
Lemma flatten_lookup (records : list AccountRecord.t) (o : gmap string jsval) (k : string) :
  k <> "__proto__" ->
  fold_left
    (fun returnee record =>
       Dict.set (JsString.toLowerCase (AccountRecord.key record))
                (VString (AccountRecord.value record)) returnee)
    records o !! k =
  match flattened records k with
  | Some v => Some (VString v)
  | None => o !! k
  end.
Proof.
  intros Hk. revert o. induction records as [|r rest IH]; intros o; simpl; [reflexivity|].
  rewrite IH. destruct (flattened rest k); [reflexivity|].
  rewrite Dict_set_lookup by exact Hk.
  destruct (JsString.toLowerCase (AccountRecord.key r) =? k)%string; reflexivity.
Qed.

Lemma flatten_proto (records : list AccountRecord.t) (o : gmap string jsval) :
  fold_left
    (fun returnee record =>
       Dict.set (JsString.toLowerCase (AccountRecord.key record))
                (VString (AccountRecord.value record)) returnee)
    records o !! "__proto__" = o !! "__proto__".
Proof.
  revert o. induction records as [|r rest IH]; intros o; simpl; [reflexivity|].
  rewrite IH. apply Dict_set_proto.
Qed.

(** In the flattened map the last record of a lower-cased key wins. *)
Lemma flattened_last (before after : list AccountRecord.t) (r : AccountRecord.t) (k : string) :
  JsString.toLowerCase (AccountRecord.key r) = k ->
  Forall (fun r' => JsString.toLowerCase (AccountRecord.key r') <> k) after ->
  flattened (before ++ r :: after) k = Some (AccountRecord.value r).
Proof.
  intros Hr Hafter.
  assert (Hnone : flattened after k = None).
  { induction Hafter as [|r' after' Hr' _ IH]; simpl; [reflexivity|].
    rewrite IH. now destruct (String.eqb_spec (JsString.toLowerCase (AccountRecord.key r')) k). }
  induction before as [|b before IH]; simpl.
  - rewrite Hnone, Hr. now rewrite String.eqb_refl.
  - now rewrite IH.
Qed.

(** A key of the flattened map is the lower-cased key of a record. *)
Lemma flattened_Some (records : list AccountRecord.t) (k v : string) :
  flattened records k = Some v ->
  exists r, In r records /\ JsString.toLowerCase (AccountRecord.key r) = k /\
            AccountRecord.value r = v.
Proof.
  induction records as [|r rest IH]; simpl; [discriminate|].
  destruct (flattened rest k) as [v'|] eqn:Hrest.
  - intros [= <-]. destruct (IH eq_refl) as (r' & Hin & Hk & Hv). eauto.
  - destruct (String.eqb_spec (JsString.toLowerCase (AccountRecord.key r)) k); [|discriminate].
    intros [= <-]. eauto.
Qed.

Lemma allRecords_cases (account : string) :
  allRecords this account =
    match getAccountData this account with
    | Ok data =>
        Ok (fold_left
              (fun returnee record =>
                 Dict.set (JsString.toLowerCase (AccountRecord.key record))
                          (VString (AccountRecord.value record)) returnee)
              (AccountData.records data) ∅)
    | Throw e => Throw e
    end.
Proof.
  unfold allRecords. destruct (getAccountData this account); reflexivity.
Qed.

(** [allRecords] returns the flattened map, and never an own [__proto__]. *)
Lemma allRecords_lookup (account : string) (data : AccountData.t) :
  getAccountData this account = Ok data ->
  exists all,
    allRecords this account = Ok all /\
    all !! "__proto__" = None /\
    forall k, k <> "__proto__" ->
      all !! k = VString <$> flattened (AccountData.records data) k.
Proof.
  intros Hdata. rewrite allRecords_cases, Hdata. eexists. split; [reflexivity|]. split.
  - rewrite flatten_proto. apply lookup_empty.
  - intros k Hk. rewrite flatten_lookup by exact Hk.
    destruct (flattened (AccountData.records data) k); [reflexivity|apply lookup_empty].
Qed.

(** The own properties of the flattened map have lower-cased names. *)
Lemma allRecords_keys_lower (account : string) (all : gmap string jsval) (k : string) :
  allRecords this account = Ok all -> is_Some (all !! k) -> JsString.has_upper k = false.
Proof.
  rewrite allRecords_cases.
  destruct (getAccountData this account) as [data|e] eqn:Hdata; [|discriminate].
  destruct (allRecords_lookup account data Hdata) as (all' & Hall & Hproto & Hlookup).
  rewrite allRecords_cases, Hdata in Hall. rewrite Hall. intros [= <-] [v Hv].
  destruct (String.eqb_spec k "__proto__") as [->|Hk]; [congruence|].
  rewrite Hlookup in Hv by exact Hk.
  destruct (flattened (AccountData.records data) k) as [v'|] eqn:Hf; [|discriminate].
  destruct (flattened_Some _ _ _ Hf) as (r & _ & <- & _).
  apply toLowerCase_no_upper.
Qed.

(** C3, amended.  For a key whose lower-cased form names no member of
    [Object.prototype], [record] looks the lower-cased key up in the
    flattened map of the account: it returns the value found when that is
    not the empty string, and throws [RecordNotFound], with the domain and
    the lower-cased key, when the key is absent or its value is the empty
    string; what [getAccountData] throws is thrown on.  In the flattened
    map the value of a lower-cased key is that of the last record with
    that lower-cased key. *)
Theorem record_found_or_RecordNotFound (account key : string) :
  inherited (JsString.toLowerCase key) = false ->
  record this account key =
    match getAccountData this account with
    | Throw e => Throw e
    | Ok data =>
        match flattened (AccountData.records data) (JsString.toLowerCase key) with
        | Some (String c v) => Ok (VString (String c v))
        | Some EmptyString | None =>
            Throw (ResolutionError RecordNotFound
                     {| domain := account;
                        recordName := Some (JsString.toLowerCase key);
                        methodName := None |})
        end
    end /\
  (forall before r after,
     JsString.toLowerCase (AccountRecord.key r) = JsString.toLowerCase key ->
     Forall (fun r' => JsString.toLowerCase (AccountRecord.key r') <>
                       JsString.toLowerCase key) after ->
     flattened (before ++ r :: after) (JsString.toLowerCase key) =
       Some (AccountRecord.value r)).
Proof.
  intros [Hproto Hget]%inherited_false. split; [|intros; now apply flattened_last].
  unfold record.
  destruct (getAccountData this account) as [data|e] eqn:Hdata.
  - destruct (allRecords_lookup account data Hdata) as (all & -> & _ & Hlookup).
    simpl. unfold Dict.get. rewrite Hlookup by exact Hproto.
    destruct (flattened (AccountData.records data) (JsString.toLowerCase key)) as [[|c v]|];
      simpl; [reflexivity|reflexivity|].
    rewrite Hget. reflexivity.
  - rewrite allRecords_cases, Hdata. reflexivity.
Qed.

(** The loop of [records]: every requested key gets what the flattened map
    reads under it, or the empty string. *)
Lemma records_fold_lookup (all o : gmap string jsval) (keys : list string) (k : string) :
  k <> "__proto__" ->
  fold_left
    (fun returnee key =>
       Dict.set key (js_or (Dict.get all key) (VString EmptyString)) returnee)
    keys o !! k =
  if JsString.includes keys k
  then Some (js_or (Dict.get all k) (VString EmptyString))
  else o !! k.
Proof.
  intros Hk. revert o. induction keys as [|a keys IH]; intros o; simpl; [reflexivity|].
  rewrite IH. unfold JsString.includes in *.
  destruct (existsb (String.eqb k) keys).
  - now rewrite orb_true_r.
  - rewrite orb_false_r, Dict_set_lookup by exact Hk. rewrite (String.eqb_sym k a).
    destruct (String.eqb_spec a k) as [->|_]; reflexivity.
Qed.

Lemma records_cases (account : string) (keys : list string) :
  records this account keys =
    match allRecords this account with
    | Ok all =>
        Ok (fold_left
              (fun returnee key =>
                 Dict.set key (js_or (Dict.get all key) (VString EmptyString)) returnee)
              keys ∅)
    | Throw e => Throw e
    end.
Proof.
  unfold records. destruct (allRecords this account); reflexivity.
Qed.

(** [records] binds every requested key other than [__proto__], and no
    other name. *)
Lemma records_lookup (account : string) (keys : list string) (all : gmap string jsval) :
  allRecords this account = Ok all ->
  exists m,
    records this account keys = Ok m /\
    forall k, k <> "__proto__" ->
      m !! k = if JsString.includes keys k
               then Some (js_or (Dict.get all k) (VString EmptyString))
               else None.
Proof.
  intros Hall. rewrite records_cases, Hall. eexists. split; [reflexivity|].
  intros k Hk. rewrite records_fold_lookup by exact Hk.
  destruct (JsString.includes keys k); [reflexivity|apply lookup_empty].
Qed.

(** Under the name [__proto__], [records] assigns [Object.prototype]. *)
Lemma records_proto_value (account : string) (all : gmap string jsval) :
  allRecords this account = Ok all ->
  js_or (Dict.get all "__proto__") (VString EmptyString) = VObjectPrototype.
Proof.
  rewrite allRecords_cases.
  destruct (getAccountData this account) as [data|e]; [|discriminate].
  intros [= <-]. unfold Dict.get. rewrite flatten_proto, lookup_empty. reflexivity.
Qed.

(** A requested key that names no member of [Object.prototype] and is
    absent from the flattened map is bound to the empty string. *)
Lemma records_missing_key (account : string) (keys : list string)
    (all : gmap string jsval) (k : string) :
  allRecords this account = Ok all ->
  In k keys -> inherited k = false -> all !! k = None ->
  exists m, records this account keys = Ok m /\ m !! k = Some (VString EmptyString).
Proof.
  intros Hall Hin [Hproto Hget]%inherited_false Hk.
  destruct (records_lookup account keys all Hall) as (m & Hm & Hlookup).
  exists m. split; [exact Hm|]. rewrite Hlookup by exact Hproto.
  apply includes_In in Hin. rewrite Hin. unfold Dict.get. now rewrite Hk, Hget.
Qed.

(** A requested key with an upper-case letter that names no member of
    [Object.prototype] is bound to the empty string, whatever the records
    of the account. *)
Lemma records_upper_key (account : string) (keys : list string)
    (all : gmap string jsval) (k : string) :
  allRecords this account = Ok all ->
  In k keys -> JsString.has_upper k = true -> inherited k = false ->
  exists m, records this account keys = Ok m /\ m !! k = Some (VString EmptyString).
Proof.
  intros Hall Hin Hup Hinh. apply (records_missing_key account keys all k); try assumption.
  destruct (all !! k) as [v|] eqn:Hv; [|reflexivity].
  assert (JsString.has_upper k = false) by (eapply allRecords_keys_lower; eauto).
  congruence.
Qed.

(** *** Group maps *)

Lemma record_own_not_record (p r : AccountRecord.t) (k : string) :
  Group.record_own p k <> Some (Group.MRecord r).
Proof.
  unfold Group.record_own.
  repeat match goal with |- context [String.eqb ?a ?b] => destruct (String.eqb a b) end;
    discriminate.
Qed.

(** Reading a record from a group map: an own property, or the prototype
    under [__proto__]. *)
Lemma Group_get_record (g : Group.t) (j : string) (r : AccountRecord.t) :
  Group.own g !! "__proto__" = None ->
  Group.get g j = Group.MRecord r <->
  (j <> "__proto__" /\ Group.own g !! j = Some r) \/
  (j = "__proto__" /\ Group.proto g = Some r).
Proof.
  intros Hwf. unfold Group.get. destruct (String.eqb_spec j "__proto__") as [->|Hj].
  - rewrite Hwf. destruct (Group.proto g) as [p|]; simpl.
    + split; [intros [= ->]; now right|intros [[[] _]|[_ [= ->]]]; reflexivity].
    + split; [discriminate|intros [[[] _]|[_ [=]]]; reflexivity].
  - destruct (Group.own g !! j) as [x|].
    + split; [intros [= ->]; now left|intros [[_ [= ->]]|[-> _]]; [reflexivity|easy]].
    + split; [|intros [[_ [=]]|[-> _]]; easy].
      destruct (Group.proto g) as [p|]; [|discriminate].
      destruct (Group.record_own p j) as [m|] eqn:Hm; [|discriminate].
      intros ->. now apply record_own_not_record in Hm.
Qed.

Lemma Group_set_wf (k : string) (x : AccountRecord.t) (g : Group.t) :
  Group.own g !! "__proto__" = None ->
  Group.own (Group.set k x g) !! "__proto__" = None.
Proof.
  intros Hwf. unfold Group.set.
  destruct (String.eqb_spec k "__proto__") as [->|Hk]; simpl; [exact Hwf|].
  now rewrite lookup_insert_ne.
Qed.

(** After [g[k] = x], the map reads [x] under [k] and, as far as records
    go, what it read before under every other name. *)
Lemma Group_get_set (k j : string) (x r : AccountRecord.t) (g : Group.t) :
  Group.own g !! "__proto__" = None ->
  Group.get (Group.set k x g) j = Group.MRecord r <->
  (k = j /\ r = x) \/ (k <> j /\ Group.get g j = Group.MRecord r).
Proof.
  intros Hwf.
  rewrite (Group_get_record (Group.set k x g)) by now apply Group_set_wf.
  rewrite (Group_get_record g) by exact Hwf.
  unfold Group.set. destruct (String.eqb_spec k "__proto__") as [->|Hk]; simpl.
  - split.
    + intros [[Hj Hown]|[-> [= <-]]]; [right|left]; intuition congruence.
    + intros [[<- ->]|[Hj [[Hj' Hown]|[-> Hp]]]]; [right|left|]; intuition congruence.
  - destruct (String.eqb_spec k j) as [->|Hkj].
    + rewrite lookup_insert_eq. split.
      * intros [[_ [= <-]]|[-> _]]; [left|]; intuition congruence.
      * intros [[_ ->]|[Hne _]]; [left|]; intuition congruence.
    + rewrite lookup_insert_ne by exact Hkj. split.
      * intros Hg. right. split; [exact Hkj|exact Hg].
      * intros [[-> _]|[_ Hg]]; [congruence|exact Hg].
Qed.

Lemma resolveOneFromRecords_snoc (records : list AccountRecord.t) (x : AccountRecord.t) :
  resolveOneFromRecords (records ++ [x]) =
  Group.set (AccountRecord.strippedKey x) x (resolveOneFromRecords records).
Proof. unfold resolveOneFromRecords. now rewrite fold_left_app. Qed.

Lemma resolveOneFromRecords_wf (records : list AccountRecord.t) :
  Group.own (resolveOneFromRecords records) !! "__proto__" = None.
Proof.
  induction records as [|x records IH] using rev_ind.
  - apply lookup_empty.
  - rewrite resolveOneFromRecords_snoc. now apply Group_set_wf.
Qed.

(** A record a group map reads under a name is one of the list, and the
    name is its stripped key. *)
Lemma resolveOneFromRecords_In (records : list AccountRecord.t) (j : string)
    (r : AccountRecord.t) :
  Group.get (resolveOneFromRecords records) j = Group.MRecord r ->
  In r records /\ AccountRecord.strippedKey r = j.
Proof.
  revert r. induction records as [|x records IH] using rev_ind; intros r.
  - cbn. unfold Group.get. cbn. rewrite lookup_empty. discriminate.
  - rewrite resolveOneFromRecords_snoc, Group_get_set by apply resolveOneFromRecords_wf.
    rewrite in_app_iff. intros [[<- ->]|[_ Hg]].
    + split; [right; now left|reflexivity].
    + destruct (IH r Hg). split; [now left|assumption].
Qed.

(** The last record of a stripped key is the one the group map reads. *)
Lemma resolveOneFromRecords_last (before after : list AccountRecord.t)
    (r : AccountRecord.t) (k : string) :
  AccountRecord.strippedKey r = k ->
  Forall (fun r' => AccountRecord.strippedKey r' <> k) after ->
  Group.get (resolveOneFromRecords (before ++ r :: after)) k = Group.MRecord r.
Proof.
  intros Hr. induction after as [|x after IH] using rev_ind; intros Hafter.
  - rewrite resolveOneFromRecords_snoc, Group_get_set by apply resolveOneFromRecords_wf.
    left. split; [exact Hr|reflexivity].
  - apply Forall_app in Hafter as [Hafter Hx]. inversion Hx as [|? ? Hxk _]; subst.
    replace (before ++ r :: after ++ [x]) with ((before ++ r :: after) ++ [x])
      by now rewrite <- app_assoc.
    rewrite resolveOneFromRecords_snoc, Group_get_set by apply resolveOneFromRecords_wf.
    right. split; [exact Hxk|now apply IH].
Qed.

Lemma of_type_app (tag : string) (l1 l2 : list AccountRecord.t) :
  of_type tag (l1 ++ l2) = of_type tag l1 ++ of_type tag l2.
Proof. unfold of_type. apply List.filter_app. Qed.

Lemma of_type_cons_same (tag : string) (r : AccountRecord.t) (l : list AccountRecord.t) :
  AccountRecord.type r = tag -> of_type tag (r :: l) = r :: of_type tag l.
Proof. intros <-. unfold of_type. simpl. now rewrite String.eqb_refl. Qed.

Lemma of_type_Forall (tag : string) (P : AccountRecord.t -> Prop) (l : list AccountRecord.t) :
  Forall (fun r => AccountRecord.type r = tag -> P r) l -> Forall P (of_type tag l).
Proof.
  induction 1 as [|r l Hr _ IH]; simpl; [constructor|].
  destruct (String.eqb_spec (AccountRecord.type r) tag) as [Ht|_]; [|exact IH].
  constructor; [now apply Hr|exact IH].
Qed.

(** C6. When the records of a resolved account hold two profile records
    [r1] and then [r2] with the same stripped key, [r2] the last profile
    record of that key, the aggregate of [account] has a profile map that
    reads [r2] under the key and [r1] under no name, a list [profiles]
    that holds both in their original order, and as its avatar the fixed
    base path followed by the account string as given. *)
Theorem account_profile_last_wins (acct : string) (data : AccountData.t)
    (l1 l2 l3 : list AccountRecord.t) (r1 r2 : AccountRecord.t) (k : string) :
  getAccountData this acct = Ok data ->
  AccountData.records data = l1 ++ r1 :: l2 ++ r2 :: l3 ->
  AccountRecord.type r1 = profile AccountRecordTypes ->
  AccountRecord.type r2 = profile AccountRecordTypes ->
  AccountRecord.strippedKey r1 = k ->
  AccountRecord.strippedKey r2 = k ->
  Forall (fun r => AccountRecord.type r = profile AccountRecordTypes ->
                   AccountRecord.strippedKey r <> k) l3 ->
  exists aggregate,
    account this acct = Ok aggregate /\
    Group.get (ConstructedAccount.profile aggregate) k = Group.MRecord r2 /\
    (forall j, Group.get (ConstructedAccount.profile aggregate) j = Group.MRecord r1 ->
               r1 = r2) /\
    ConstructedAccount.profiles aggregate =
      of_type (profile AccountRecordTypes) l1 ++
      r1 :: of_type (profile AccountRecordTypes) l2 ++
      r2 :: of_type (profile AccountRecordTypes) l3 /\
    ConstructedAccount.avatar aggregate =
      ("https://identicons.da.systems/identicon/" ++ acct)%string.
Proof.
  intros Hdata Hrecords Ht1 Ht2 Hk1 Hk2 Hl3.
  unfold account. rewrite Hdata. simpl. eexists. split; [reflexivity|]. simpl.
  assert (Hprofiles :
    of_type (profile AccountRecordTypes) (AccountData.records data) =
    (of_type (profile AccountRecordTypes) l1 ++
     r1 :: of_type (profile AccountRecordTypes) l2) ++
    r2 :: of_type (profile AccountRecordTypes) l3).
  { rewrite Hrecords, of_type_app, of_type_cons_same, of_type_app, of_type_cons_same
      by assumption.
    now rewrite <- app_assoc. }
  assert (Hlast :
    Group.get (resolveOneFromRecords
                 (of_type (profile AccountRecordTypes) (AccountData.records data))) k =
    Group.MRecord r2).
  { rewrite Hprofiles. apply resolveOneFromRecords_last; [exact Hk2|].
    now apply of_type_Forall. }
  split; [exact Hlast|]. split.
  - intros j Hj. destruct (resolveOneFromRecords_In _ _ _ Hj) as [_ Hjk].
    rewrite Hk1 in Hjk. subst j. rewrite Hlast in Hj. now injection Hj.
  - split; [|reflexivity]. rewrite Hprofiles. now rewrite <- app_assoc.
Qed.

(** *** Construction *)

Lemma DasSupportedNetwork_guard_In (network : string) :
  DasSupportedNetwork_guard network = true <->
  In network ["mainnet"; "testnet"; "aggron"].
Proof. apply includes_In. Qed.

(** C8, amended.  With [effective] the network option, or mainnet when the
    option is absent or empty: construction throws [UnspecifiedUrl] exactly
    when the url is absent or empty and no provider is supplied; it throws
    [UnsupportedNetwork] exactly when that is not so and [effective] is
    none of mainnet, testnet and aggron; in every other case it succeeds.
    The instance it returns stores [effective] as its network, the url
    option as given, and the supplied provider or, without one, the default
    transport of the url. *)
Theorem constructor_outcome (source : DasSource) :
  let effective :=
    match source_network source with
    | Some (String c n) => String c n
    | Some EmptyString | None => "mainnet"
    end in
  let usable := truthy (source_url source) = true \/ source_provider source <> None in
  (constructor source = Throw (ConfigurationError UnspecifiedUrl DAS) <-> ~ usable) /\
  (constructor source = Throw (ConfigurationError UnsupportedNetwork DAS) <->
   usable /\ ~ In effective ["mainnet"; "testnet"; "aggron"]) /\
  ((exists service, constructor source = Ok service) <->
   usable /\ In effective ["mainnet"; "testnet"; "aggron"]) /\
  (forall service, constructor source = Ok service ->
     name service = DAS /\
     network service = effective /\
     url service = source_url source /\
     match source_provider source with
     | Some supplied => provider service = supplied
     | None =>
         exists u, source_url source = Some u /\ u <> EmptyString /\
                   provider service = FetchProvider DAS u
     end).
Proof.
  intros effective usable. unfold constructor.
  replace (match source_network source with
           | Some n => if JsString.nonempty n then n else "mainnet"
           | None => "mainnet"
           end) with effective
    by (subst effective; destruct (source_network source) as [[|c n]|]; reflexivity).
  assert (Husable :
    truthy (source_url source) || bool_decide (is_Some (source_provider source)) = true
    <-> usable).
  { subst usable. rewrite orb_true_iff, bool_decide_eq_true.
    destruct (source_provider source) as [p|].
    - split; intros _; right; [discriminate|eauto].
    - split; (intros [Hu|Hp]; [now left|]); [now destruct Hp|congruence]. }
  pose proof (DasSupportedNetwork_guard_In effective) as Hguard.
  destruct (truthy (source_url source) || bool_decide (is_Some (source_provider source)))
    eqn:Hcheck; simpl.
  - assert (Hu : usable) by now apply Husable.
    destruct (DasSupportedNetwork_guard effective) eqn:Hnet; simpl.
    + assert (Hin : In effective ["mainnet"; "testnet"; "aggron"]) by now apply Hguard.
      split; [split; [discriminate|intros Hn; now destruct Hn]|].
      split; [split; [discriminate|intros [_ Hn]; now destruct Hn]|].
      split; [split; [intros _; split; assumption|eauto]|].
      intros service [= <-]. simpl. do 3 (split; [reflexivity|]).
      destruct (source_provider source) as [p|] eqn:Hp; [reflexivity|].
      destruct (source_url source) as [[|c u]|] eqn:Hurl; simpl in Hcheck;
        try discriminate.
      exists (String c u). repeat split. discriminate.
    + assert (Hin : ~ In effective ["mainnet"; "testnet"; "aggron"]).
      { intros Hin. apply Hguard in Hin. congruence. }
      split; [split; [discriminate|intros Hn; now destruct Hn]|].
      split; [split; [intros _; split; assumption|reflexivity]|].
      split; [split; [intros [service [=]]|intros [_ Hn]; now destruct Hin]|].
      intros service [=].
  - assert (Hu : ~ usable) by (intros Hu; apply Husable in Hu; discriminate).
    split; [split; [intros _; assumption|reflexivity]|].
    split; [split; [discriminate|intros [Hn _]; now destruct Hu]|].
    split; [split; [intros [service [=]]|intros [Hn _]; now destruct Hu]|].
    intros service [=].
Qed.

End Properties.

(** ** Further properties of the query surface *)

Section Coverage.
Context `{Builtins} `{Imports}.
Variable this : DasService.

Lemma toLowerCase_app (a b : string) :
  JsString.toLowerCase (a ++ b) =
  (JsString.toLowerCase a ++ JsString.toLowerCase b)%string.
Proof.
  induction a as [|c a IH]; [reflexivity|].
  change (String c a ++ b)%string with (String c (a ++ b)).
  simpl. now rewrite IH.
Qed.

(** No key of the address group names a member of [Object.prototype]. *)
Lemma address_key_not_inherited (s : string) :
  inherited ("address." ++ s) = false.
Proof. reflexivity. Qed.


(** [record] on a key that names no inherited member. *)
Lemma record_lookup (account key : string) :
  inherited (JsString.toLowerCase key) = false ->
  record this account key =
    match getAccountData this account with
    | Throw e => Throw e
    | Ok data =>
        match flattened (AccountData.records data) (JsString.toLowerCase key) with
        | Some (String c v) => Ok (VString (String c v))
        | Some EmptyString | None =>
            Throw (ResolutionError RecordNotFound
                     {| domain := account;
                        recordName := Some (JsString.toLowerCase key);
                        methodName := None |})
        end
    end.
Proof.
  intros [Hproto Hget]%inherited_false. unfold record.
  destruct (getAccountData this account) as [data|e] eqn:Hdata.
  - destruct (allRecords_lookup this account data Hdata) as (all & -> & _ & Hlookup).
    simpl. unfold Dict.get. rewrite Hlookup by exact Hproto.
    destruct (flattened (AccountData.records data) (JsString.toLowerCase key)) as [[|c v]|];
      simpl; [reflexivity|reflexivity|].
    rewrite Hget. reflexivity.
  - rewrite allRecords_cases, Hdata. reflexivity.
Qed.

Lemma records_fold_proto (all o : gmap string jsval) (keys : list string) :
  fold_left
    (fun returnee key =>
       Dict.set key (js_or (Dict.get all key) (VString EmptyString)) returnee)
    keys o !! "__proto__" = o !! "__proto__".
Proof.
  revert o. induction keys as [|a keys IH]; intros o; simpl; [reflexivity|].
  rewrite IH. apply Dict_set_proto.
Qed.


(** Every stripped key of a list is bound in its group map. *)
Lemma resolveOneFromRecords_bound (records : list AccountRecord.t) (r : AccountRecord.t) :
  In r records ->
  exists r', Group.get (resolveOneFromRecords records) (AccountRecord.strippedKey r) =
               Group.MRecord r'.
Proof.
  induction records as [|x records IH] using rev_ind; [intros []|].
  rewrite in_app_iff. intros Hin.
  destruct (String.eqb_spec (AccountRecord.strippedKey x) (AccountRecord.strippedKey r))
    as [Heq|Hne].
  - exists x. rewrite resolveOneFromRecords_snoc.
    apply Group_get_set; [apply resolveOneFromRecords_wf|]. left. now split.
  - destruct Hin as [Hin|[->|[]]]; [|congruence].
    destruct (IH Hin) as [r' Hr']. exists r'. rewrite resolveOneFromRecords_snoc.
    apply Group_get_set; [apply resolveOneFromRecords_wf|]. right. now split.
Qed.

(** [namehash] is a placeholder: it returns the empty string exactly on the
    strings [isSupportedDomain] accepts, throws [UnregisteredDomain] with
    the string as domain on every other, and returns no other hash. *)
Theorem namehash_placeholder (account : string) :
  (namehash account = Ok EmptyString <-> isSupportedDomain account = true) /\
  (namehash account =
     Throw (ResolutionError UnregisteredDomain
              {| domain := account; recordName := None; methodName := None |}) <->
   isSupportedDomain account = false) /\
  (forall hash, namehash account = Ok hash -> hash = EmptyString).
Proof.
  unfold namehash. destruct (isSupportedDomain account); simpl.
  - split; [split; [reflexivity|reflexivity]|].
    split; [split; discriminate|]. now intros hash [= <-].
  - split; [split; discriminate|].
    split; [split; reflexivity|]. discriminate.
Qed.

(** [owner] by the answer of the transport: the owner token of the reply as
    sent, [UnregisteredDomain] on a reply without data, and the failure of
    the transport as it is. *)
Theorem owner_by_reply (account : string) :
  owner this account =
    match request (provider this) das_searchAccount [account] with
    | Fails fault => Throw (TransportError fault)
    | Replies reply =>
        match SearchAccountReply.data reply with
        | None =>
            Throw (ResolutionError UnregisteredDomain
                     {| domain := account; recordName := None; methodName := None |})
        | Some cell =>
            Ok (WireAccountData.owner_lock_args_hex (AccountDataCell.account_data cell))
        end
    end.
Proof.
  unfold owner. rewrite getAccountData_cases.
  destruct (request (provider this) das_searchAccount [account]) as [reply|fault];
    [|reflexivity].
  destruct (SearchAccountReply.data reply); reflexivity.
Qed.

(** In resolved data a key is put together again from its derived fields:
    the type holds no dot; a key with a dot is the type, a dot and the
    stripped key; a key without one is the type alone, and its stripped
    key is empty. *)
Theorem getAccountData_key_parts (account : string) (data : AccountData.t) :
  getAccountData this account = Ok data ->
  Forall (fun r =>
            JsString.occurs "." (AccountRecord.type r) = false /\
            (JsString.occurs "." (AccountRecord.key r) = true ->
             AccountRecord.key r =
               (AccountRecord.type r ++ "." ++ AccountRecord.strippedKey r)%string) /\
            (JsString.occurs "." (AccountRecord.key r) = false ->
             AccountRecord.key r = AccountRecord.type r /\
             AccountRecord.strippedKey r = EmptyString))
         (AccountData.records data).
Proof.
  rewrite getAccountData_cases.
  destruct (request (provider this) das_searchAccount [account]) as [reply|fault];
    [|discriminate].
  destruct (SearchAccountReply.data reply) as [cell|]; [|discriminate].
  intros [= <-]. simpl. apply List.Forall_forall. intros r (w & <- & _)%in_map_iff.
  destruct (normalize_key w) as [Htype Hkey]. change (AccountRecord.key (normalize w))
    with (WireRecord.key w).
  split; [exact Htype|]. split.
  - intros Hdot. now rewrite Hdot in Hkey.
  - intros Hdot. rewrite Hdot in Hkey. split; [exact Hkey|].
    unfold normalize; simpl. now rewrite (split_without_sep _ _ Hdot).
Qed.

(** What [getAccountData] throws, every query built on it throws on
    unchanged. *)
Theorem getAccountData_error_propagates (acct key ticker : string)
    (keys : list string) (e : exn) :
  getAccountData this acct = Throw e ->
  owner this acct = Throw e /\
  allRecords this acct = Throw e /\
  record this acct key = Throw e /\
  records this acct keys = Throw e /\
  recordsByKey this acct key = Throw e /\
  addr this acct ticker = Throw e /\
  account this acct = Throw e.
Proof.
  intros He.
  assert (Hall : allRecords this acct = Throw e)
    by now rewrite allRecords_cases, He.
  unfold owner, addr, record, records, recordsByKey, account.
  rewrite He, Hall. repeat split; reflexivity.
Qed.

(** [allRecords] on resolved data never fails.  Its map binds the
    lower-cased key of a record to the value of the last record with that
    lower-cased key; it binds nothing else, so no name with an upper-case
    letter; it has no own property [__proto__], a record of that key being
    dropped; and it is empty for an account without records. *)
Theorem allRecords_flattens (account : string) (data : AccountData.t) :
  getAccountData this account = Ok data ->
  exists all,
    allRecords this account = Ok all /\
    (forall before r after,
       AccountData.records data = before ++ r :: after ->
       JsString.toLowerCase (AccountRecord.key r) <> "__proto__" ->
       Forall (fun r' => JsString.toLowerCase (AccountRecord.key r') <>
                         JsString.toLowerCase (AccountRecord.key r)) after ->
       all !! JsString.toLowerCase (AccountRecord.key r) =
         Some (VString (AccountRecord.value r))) /\
    (forall k, is_Some (all !! k) ->
       JsString.has_upper k = false /\
       exists r, In r (AccountData.records data) /\
                 JsString.toLowerCase (AccountRecord.key r) = k) /\
    all !! "__proto__" = None /\
    (AccountData.records data = [] -> all = ∅).
Proof.
  intros Hdata.
  destruct (allRecords_lookup this account data Hdata) as (all & Hall & Hproto & Hlookup).
  exists all. split; [exact Hall|]. split; [|split; [|split; [exact Hproto|]]].
  - intros before r after Hrecords Hr Hafter.
    rewrite Hlookup, Hrecords by exact Hr.
    now rewrite (flattened_last before after r _ eq_refl Hafter).
  - intros k [v Hv].
    destruct (String.eqb_spec k "__proto__") as [->|Hk]; [congruence|].
    rewrite Hlookup in Hv by exact Hk.
    destruct (flattened (AccountData.records data) k) as [v'|] eqn:Hf; [|discriminate].
    destruct (flattened_Some _ _ _ Hf) as (r & Hin & <- & _).
    split; [apply toLowerCase_no_upper|eauto].
  - intros Hnil. rewrite allRecords_cases, Hdata, Hnil in Hall. now injection Hall as <-.
Qed.

(** [addr] looks up the key made of [address.] and the lower-cased ticker:
    it returns the non-empty value of the last record with that
    lower-cased key, throws [RecordNotFound] with that key as record name
    when there is none, and throws on what [getAccountData] throws.  Two
    tickers that differ in case only get the same answer. *)
Theorem addr_by_lower_cased_ticker (account ticker : string) :
  addr this account ticker =
    match getAccountData this account with
    | Throw e => Throw e
    | Ok data =>
        match flattened (AccountData.records data)
                        ("address." ++ JsString.toLowerCase ticker) with
        | Some (String c v) => Ok (VString (String c v))
        | Some EmptyString | None =>
            Throw (ResolutionError RecordNotFound
                     {| domain := account;
                        recordName := Some ("address." ++ JsString.toLowerCase ticker)%string;
                        methodName := None |})
        end
    end /\
  (forall ticker',
     JsString.toLowerCase ticker' = JsString.toLowerCase ticker ->
     addr this account ticker' = addr this account ticker).
Proof.
  assert (Hkey : forall t,
    JsString.toLowerCase ("address." ++ t) = ("address." ++ JsString.toLowerCase t)%string)
    by (intros t; apply (toLowerCase_app "address." t)).
  split.
  - unfold addr. rewrite record_lookup; rewrite Hkey;
      [reflexivity|apply address_key_not_inherited].
  - intros ticker' Hsame. unfold addr, record. now rewrite !Hkey, Hsame.
Qed.

(** [records] on resolved data never fails.  Its map binds a requested key
    that names no member of [Object.prototype] to the value the flattened
    map holds under that very key, or to the empty string when it holds
    none, and binds no name that was not requested. *)
Theorem records_requested_keys (account : string) (keys : list string)
    (data : AccountData.t) :
  getAccountData this account = Ok data ->
  exists m,
    records this account keys = Ok m /\
    (forall k, In k keys -> inherited k = false ->
       m !! k = Some (VString (default EmptyString
                                 (flattened (AccountData.records data) k)))) /\
    (forall k, ~ In k keys -> m !! k = None).
Proof.
  intros Hdata.
  destruct (allRecords_lookup this account data Hdata) as (all & Hall & Hproto & Hlookup).
  rewrite records_cases, Hall. eexists. split; [reflexivity|]. split.
  - intros k Hin [Hk Hget]%inherited_false.
    rewrite records_fold_lookup by exact Hk.
    apply includes_In in Hin. rewrite Hin. unfold Dict.get. rewrite Hlookup by exact Hk.
    destruct (flattened (AccountData.records data) k) as [[|c v]|]; simpl;
      [reflexivity|reflexivity|]. now rewrite Hget.
  - intros k Hout.
    destruct (String.eqb_spec k "__proto__") as [->|Hk].
    + rewrite records_fold_proto. apply lookup_empty.
    + rewrite records_fold_lookup by exact Hk.
      destruct (JsString.includes keys k) eqn:Hin; [|apply lookup_empty].
      apply includes_In in Hin. contradiction.
Qed.

(** [records] reads its keys as a set: two lists with the same members, in
    whatever order and however often, get the same answer. *)
Theorem records_keys_as_set (account : string) (keys1 keys2 : list string) :
  (forall k, In k keys1 <-> In k keys2) ->
  records this account keys1 = records this account keys2.
Proof.
  intros Hsame. rewrite !records_cases.
  destruct (allRecords this account) as [all|e]; [|reflexivity].
  f_equal. apply map_eq. intros k.
  destruct (String.eqb_spec k "__proto__") as [->|Hk].
  - now rewrite !records_fold_proto.
  - rewrite !records_fold_lookup by exact Hk.
    replace (JsString.includes keys2 k) with (JsString.includes keys1 k); [reflexivity|].
    destruct (JsString.includes keys1 k) eqn:H1, (JsString.includes keys2 k) eqn:H2;
      try reflexivity.
    + apply includes_In, Hsame, includes_In in H1. congruence.
    + apply includes_In, Hsame, includes_In in H2. congruence.
Qed.

(** On a requested key without upper-case letters that names no member of
    [Object.prototype], [records] and [record] agree: where [record]
    returns a value, [records] binds the key to it, and where [record]
    throws [RecordNotFound], [records] binds the key to the empty string. *)
Theorem records_agrees_with_record (account : string) (keys : list string)
    (data : AccountData.t) (k : string) :
  getAccountData this account = Ok data ->
  In k keys -> JsString.has_upper k = false -> inherited k = false ->
  exists m,
    records this account keys = Ok m /\
    ((exists v, record this account k = Ok (VString v) /\ v <> EmptyString /\
                m !! k = Some (VString v)) \/
     (record this account k =
        Throw (ResolutionError RecordNotFound
                 {| domain := account; recordName := Some k; methodName := None |}) /\
      m !! k = Some (VString EmptyString))).
Proof.
  intros Hdata Hin Hlower Hinh.
  pose proof (toLowerCase_fixed k Hlower) as Hfix.
  destruct (allRecords_lookup this account data Hdata) as (all & Hall & Hproto & Hlookup).
  destruct (inherited_false k Hinh) as [Hk Hget].
  rewrite records_cases, Hall. eexists. split; [reflexivity|].
  rewrite records_fold_lookup by exact Hk.
  apply includes_In in Hin. rewrite Hin.
  rewrite record_lookup by now rewrite Hfix.
  rewrite Hdata, Hfix. unfold Dict.get. rewrite Hlookup by exact Hk.
  destruct (flattened (AccountData.records data) k) as [[|c v]|]; simpl.
  - right. now split.
  - left. exists (String c v). repeat split. discriminate.
  - right. rewrite Hget. now split.
Qed.


(** [reverse] checks the ticker and does not send it: ETH and CKB get the
    same answer, the first account of the reply in its order, and the
    failure of the transport as it is. *)
Theorem reverse_same_for_ETH_and_CKB (address : string) :
  reverse this address "ETH" = reverse this address "CKB" /\
  reverse this address "ETH" =
    match request (provider this) das_getAddressAccount [address] with
    | Fails fault => Throw (TransportError fault)
    | Replies reply =>
        Ok (first (map AddressAccount.account
                       (AddressAccountCell.account_data (AddressAccountReply.data reply))))
    end.
Proof.
  rewrite !reverse_supported_currency by (simpl; tauto).
  split; [reflexivity|]. unfold allReverse.
  destruct (request (provider this) das_getAddressAccount [address]); reflexivity.
Qed.

(** The group map of a list of records: a record it reads under a name is
    one of the list with that stripped key; every stripped key of the list
    is bound; and of the records of one stripped key the last is read. *)
Theorem resolveOneFromRecords_groups (records : list AccountRecord.t) :
  (forall j r, Group.get (resolveOneFromRecords records) j = Group.MRecord r ->
     In r records /\ AccountRecord.strippedKey r = j) /\
  (forall r, In r records ->
     exists r', Group.get (resolveOneFromRecords records) (AccountRecord.strippedKey r) =
                  Group.MRecord r' /\
                In r' records /\
                AccountRecord.strippedKey r' = AccountRecord.strippedKey r) /\
  (forall before r after,
     records = before ++ r :: after ->
     Forall (fun r' => AccountRecord.strippedKey r' <> AccountRecord.strippedKey r) after ->
     Group.get (resolveOneFromRecords records) (AccountRecord.strippedKey r) =
       Group.MRecord r).
Proof.
  split; [apply resolveOneFromRecords_In|]. split.
  - intros r Hin. destruct (resolveOneFromRecords_bound records r Hin) as [r' Hr'].
    exists r'. split; [exact Hr'|]. now apply resolveOneFromRecords_In.
  - intros before r after -> Hafter.
    now apply resolveOneFromRecords_last.
Qed.


End Coverage.

(** ** The service on the sample indexer *)

#[local] Existing Instance Sample.builtins.
#[local] Existing Instance Sample.imports.

(** The resolved data of the sample account: numbers for the wire [ttl]s,
    keys split at their first dot. *)
Example getAccountData_alice :
  getAccountData Sample.service "alice.bit" =
    Ok {| AccountData.account := "alice.bit";
          AccountData.owner_lock_args_hex := "0x05a11ce";
          AccountData.records :=
            [ {| AccountRecord.key := "profile.twitter"; AccountRecord.value := "old";
                 AccountRecord.ttl := Some 300%N;
                 AccountRecord.type := "profile"; AccountRecord.strippedKey := "twitter" |};
              {| AccountRecord.key := "address.ETH"; AccountRecord.value := "0xa11ce";
                 AccountRecord.ttl := Some 300%N;
                 AccountRecord.type := "address"; AccountRecord.strippedKey := "ETH" |};
              {| AccountRecord.key := "profile.twitter"; AccountRecord.value := "new";
                 AccountRecord.ttl := Some 300%N;
                 AccountRecord.type := "profile"; AccountRecord.strippedKey := "twitter" |};
              {| AccountRecord.key := "custom_key.note"; AccountRecord.value := EmptyString;
                 AccountRecord.ttl := Some 60%N;
                 AccountRecord.type := "custom_key"; AccountRecord.strippedKey := "note" |} ] |}.
Proof. vm_compute. reflexivity. Qed.

(** C4 on the account of the key shapes: the numbers of the wire [ttl]s
    under the stand-in for [Number], and every key cut at its first dot. *)
Lemma getAccountData_resolves_witness :
  exists data,
    getAccountData Sample.shapes_service "shapes.bit" = Ok data /\
    Forall2 resolved_from (WireAccountData.records Sample.shapes) (AccountData.records data) /\
    map (fun r => (AccountRecord.key r, AccountRecord.type r, AccountRecord.strippedKey r))
        (AccountData.records data) =
      [ ("address.ETH", "address", "ETH");
        ("a.b.c", "a", "b.c");
        ("nodot", "nodot", EmptyString);
        (".lead", EmptyString, "lead");
        ("trail.", "trail", EmptyString);
        ("a..b", "a", ".b");
        (EmptyString, EmptyString, EmptyString) ] /\
    map AccountRecord.ttl (AccountData.records data) = repeat (Some 300%N) 7.
Proof.
  destruct (proj2 (getAccountData_resolves Sample.shapes_service "shapes.bit")
              {| SearchAccountReply.data :=
                   Some {| AccountDataCell.account_data := Sample.shapes |} |}
              {| AccountDataCell.account_data := Sample.shapes |}
              eq_refl eq_refl)
    as (data & Hdata & _ & _ & Hrecords).
  exists data. split; [exact Hdata|]. split; [exact Hrecords|].
  assert (Hok : Ok data =
                Ok {| AccountData.account := "shapes.bit";
                      AccountData.owner_lock_args_hex := "0x05";
                      AccountData.records :=
                        map normalize (WireAccountData.records Sample.shapes) |})
    by (rewrite <- Hdata; reflexivity).
  injection Hok as ->. split; reflexivity.
Defined.

(** C1, on an unregistered domain.  The indexer answers without [data],
    [getAccountData] throws [UnregisteredDomain], and [isRegistered] throws
    it on instead of answering [false]. *)
Theorem isRegistered_unregistered_throws :
  request (provider Sample.service) das_searchAccount ["nobody.bit"] =
    Replies {| SearchAccountReply.data := None |} /\
  isRegistered Sample.service "nobody.bit" =
    Throw (ResolutionError UnregisteredDomain
             {| domain := "nobody.bit"; recordName := None; methodName := None |}).
Proof. split; vm_compute; reflexivity. Qed.

(** The validator on the names of the specification's tests. *)
Example isSupportedDomain_tests :
  isSupportedDomain "a.bit" = true /\
  isSupportedDomain "a..bit" = false /\
  isSupportedDomain "notbit.com" = false.
Proof. repeat split; vm_compute; reflexivity. Qed.

(** C2, on a name that holds [.bit] without ending in it.  The pattern is
    not anchored at the end, so the validator accepts the name. *)
Theorem isSupportedDomain_accepts_bit_inside :
  JsString.endsWith "a.bit.com" ".bit" = false /\
  isSupportedDomain "a.bit.com" = true.
Proof. split; vm_compute; reflexivity. Qed.

(** The validator also refuses a name that ends in [.bit] and has no empty
    label when a line terminator stands before the suffix. *)
Example isSupportedDomain_line_terminator :
  let s := String (ascii_of_N 10) ".bit" in
  JsString.endsWith s ".bit" = true /\
  forallb JsString.nonempty (JsString.split "." s) = true /\
  isSupportedDomain s = false.
Proof. repeat split; vm_compute; reflexivity. Qed.

(** C3, as stated, fails twice on the sample account.  The key
    [custom_key.note] is in the flattened map, with the empty string as
    its value, and [record] throws [RecordNotFound]; the key [constructor]
    is not in the flattened map, and [record] returns the member the map
    inherits under that name. *)
Lemma record_not_exactly_absent :
  (all ← allRecords Sample.service "alice.bit";
   mret (all !! "custom_key.note", all !! "constructor")) =
    Ok (Some (VString EmptyString), None) /\
  record Sample.service "alice.bit" "custom_key.note" =
    Throw (ResolutionError RecordNotFound
             {| domain := "alice.bit"; recordName := Some "custom_key.note";
                methodName := None |}) /\
  record Sample.service "alice.bit" "constructor" = Ok (VBuiltin "constructor").
Proof. repeat split; vm_compute; reflexivity. Qed.

(** C3, amended, on the sample account: the key is lower-cased, and of the
    two records of the key the later one is returned. *)
Lemma record_found_or_RecordNotFound_witness :
  inherited (JsString.toLowerCase "Profile.Twitter") = false /\
  record Sample.service "alice.bit" "Profile.Twitter" = Ok (VString "new").
Proof.
  split; [reflexivity|].
  destruct (record_found_or_RecordNotFound Sample.service "alice.bit" "Profile.Twitter"
              eq_refl) as [-> _].
  reflexivity.
Defined.

(** C5, on an address without accounts.  [reverse] returns [undefined], the
    element at index 0 of an empty array, and not [null]. *)
Theorem reverse_without_accounts_undefined :
  allReverse Sample.service "0xdead" = Ok [] /\
  reverse Sample.service "0xdead" "ETH" = Ok VUndefined /\
  reverse Sample.service "0xdead" "ETH" <> Ok VNull.
Proof. repeat split; [vm_compute; reflexivity..|discriminate]. Qed.

(** C6 on the sample account, whose two twitter records are profile
    records of the stripped key [twitter]. *)
Lemma account_profile_last_wins_witness :
  exists aggregate,
    account Sample.service "alice.bit" = Ok aggregate /\
    Group.get (ConstructedAccount.profile aggregate) "twitter" =
      Group.MRecord (normalize (Sample.wire "profile.twitter" "new" "300")) /\
    (forall j,
       Group.get (ConstructedAccount.profile aggregate) j =
         Group.MRecord (normalize (Sample.wire "profile.twitter" "old" "300")) ->
       normalize (Sample.wire "profile.twitter" "old" "300") =
       normalize (Sample.wire "profile.twitter" "new" "300")) /\
    ConstructedAccount.profiles aggregate =
      [ normalize (Sample.wire "profile.twitter" "old" "300");
        normalize (Sample.wire "profile.twitter" "new" "300") ] /\
    ConstructedAccount.avatar aggregate =
      "https://identicons.da.systems/identicon/alice.bit".
Proof.
  pose proof (account_profile_last_wins Sample.service "alice.bit"
           {| AccountData.account := "alice.bit";
              AccountData.owner_lock_args_hex := "0x05a11ce";
              AccountData.records :=
                map normalize (WireAccountData.records Sample.alice) |}
           []
           [normalize (Sample.wire "address.ETH" "0xa11ce" "300")]
           [normalize (Sample.wire "custom_key.note" EmptyString "60")]
           (normalize (Sample.wire "profile.twitter" "old" "300"))
           (normalize (Sample.wire "profile.twitter" "new" "300"))
           "twitter") as W.
  specialize (W eq_refl eq_refl eq_refl eq_refl eq_refl eq_refl).
  assert (Hlater :
    Forall (fun r => AccountRecord.type r = profile AccountRecordTypes ->
                     AccountRecord.strippedKey r <> "twitter")
           [normalize (Sample.wire "custom_key.note" EmptyString "60")]).
  { constructor; [|constructor]. simpl. discriminate. }
  exact (W Hlater).
Defined.

(** C7, on a requested key that names an inherited member.  [toString] is
    absent from the flattened map, and [records] binds it to the function
    every plain object inherits under that name, not to the empty string. *)
Theorem records_inherited_key_not_empty :
  (all ← allRecords Sample.service "alice.bit"; mret (all !! "toString")) = Ok None /\
  (m ← records Sample.service "alice.bit" ["toString"]; mret (m !! "toString")) =
    Ok (Some (VBuiltin "toString")).
Proof. split; vm_compute; reflexivity. Qed.

(** [records] gives a missing key that names no inherited member the empty
    string. *)
Example records_missing_key_alice :
  (m ← records Sample.service "alice.bit" ["missing.key"]; mret (m !! "missing.key")) =
    Ok (Some (VString EmptyString)).
Proof. vm_compute. reflexivity. Qed.

(** C8, as stated, fails on these options.  An empty url is supplied and
    construction throws [UnspecifiedUrl]; a network outside the supported
    set without url and provider throws [UnspecifiedUrl] as well, not
    [UnsupportedNetwork]. *)
Lemma constructor_empty_url_unspecified :
  let empty_url :=
    {| source_url := Some EmptyString; source_network := None; source_provider := None |} in
  let network_only :=
    {| source_url := None; source_network := Some "ropsten"; source_provider := None |} in
  is_Some (source_url empty_url) /\
  constructor empty_url = Throw (ConfigurationError UnspecifiedUrl DAS) /\
  DasSupportedNetwork_guard "ropsten" = false /\
  constructor network_only = Throw (ConfigurationError UnspecifiedUrl DAS) /\
  constructor network_only <> Throw (ConfigurationError UnsupportedNetwork DAS).
Proof. repeat split; try reflexivity; [eexists; reflexivity|discriminate]. Qed.

(** Construction from a url alone: mainnet and the default transport. *)
Example constructor_url_only :
  constructor {| source_url := Some "https://indexer.da.systems";
                 source_network := None;
                 source_provider := None |} =
    Ok {| name := DAS;
          network := "mainnet";
          url := Some "https://indexer.da.systems";
          provider := FetchProvider DAS "https://indexer.da.systems" |}.
Proof. reflexivity. Qed.

(** C10, on a requested key with an upper-case letter that names an
    inherited member.  [records] binds [hasOwnProperty] to the inherited
    function, not to the empty string. *)
Theorem records_upper_inherited_key :
  JsString.has_upper "hasOwnProperty" = true /\
  (m ← records Sample.service "alice.bit" ["hasOwnProperty"];
   mret (m !! "hasOwnProperty")) =
    Ok (Some (VBuiltin "hasOwnProperty")).
Proof. split; vm_compute; reflexivity. Qed.

(** A requested key with an upper-case letter that names no inherited
    member gets the empty string, though a record has the key. *)
Example records_upper_key_alice :
  (m ← records Sample.service "alice.bit" ["address.ETH"; "address.eth"];
   mret (m !! "address.ETH", m !! "address.eth")) =
    Ok (Some (VString EmptyString), Some (VString "0xa11ce")).
Proof. vm_compute. reflexivity. Qed.

(** ** Further properties, on the sample indexer *)

Lemma getAccountData_key_parts_witness :
  Forall (fun r =>
            JsString.occurs "." (AccountRecord.type r) = false /\
            (JsString.occurs "." (AccountRecord.key r) = true ->
             AccountRecord.key r =
               (AccountRecord.type r ++ "." ++ AccountRecord.strippedKey r)%string) /\
            (JsString.occurs "." (AccountRecord.key r) = false ->
             AccountRecord.key r = AccountRecord.type r /\
             AccountRecord.strippedKey r = EmptyString))
         (AccountData.records Sample.resolved).
Proof.
  exact (getAccountData_key_parts Sample.service "alice.bit" Sample.resolved eq_refl).
Defined.

Lemma getAccountData_error_propagates_witness :
  getAccountData Sample.service "nobody.bit" =
    Throw (ResolutionError UnregisteredDomain
             {| domain := "nobody.bit"; recordName := None; methodName := None |}) /\
  records Sample.service "nobody.bit" ["address.eth"] =
    Throw (ResolutionError UnregisteredDomain
             {| domain := "nobody.bit"; recordName := None; methodName := None |}) /\
  account Sample.service "nobody.bit" =
    Throw (ResolutionError UnregisteredDomain
             {| domain := "nobody.bit"; recordName := None; methodName := None |}).
Proof.
  split; [reflexivity|].
  destruct (getAccountData_error_propagates Sample.service "nobody.bit" "address.eth" "eth"
              ["address.eth"] _ eq_refl) as (_ & _ & _ & Hrecords & _ & _ & Haccount).
  split; [exact Hrecords|exact Haccount].
Defined.

Lemma allRecords_flattens_witness :
  exists all,
    allRecords Sample.service "alice.bit" = Ok all /\
    all !! "profile.twitter" = Some (VString "new") /\
    all !! "__proto__" = None.
Proof.
  destruct (allRecords_flattens Sample.service "alice.bit" Sample.resolved eq_refl)
    as (all & Hall & Hlast & _ & Hproto & _).
  exists all. split; [exact Hall|]. split; [|exact Hproto].
  apply (Hlast
           [normalize (Sample.wire "profile.twitter" "old" "300");
            normalize (Sample.wire "address.ETH" "0xa11ce" "300")]
           (normalize (Sample.wire "profile.twitter" "new" "300"))
           [normalize (Sample.wire "custom_key.note" EmptyString "60")]).
  - reflexivity.
  - discriminate.
  - constructor; [discriminate|constructor].
Defined.

Lemma records_requested_keys_witness :
  exists m,
    records Sample.service "alice.bit" ["address.eth"; "missing.key"] = Ok m /\
    m !! "address.eth" = Some (VString "0xa11ce") /\
    m !! "missing.key" = Some (VString EmptyString) /\
    m !! "profile.twitter" = None.
Proof.
  destruct (records_requested_keys Sample.service "alice.bit"
              ["address.eth"; "missing.key"] Sample.resolved eq_refl)
    as (m & Hm & Hin & Hout).
  exists m. split; [exact Hm|]. split; [|split].
  - apply (Hin "address.eth"); [simpl; tauto|reflexivity].
  - apply (Hin "missing.key"); [simpl; tauto|reflexivity].
  - apply Hout. simpl. intros [Heq|[Heq|[]]]; discriminate Heq.
Defined.

Lemma records_keys_as_set_witness :
  records Sample.service "alice.bit" ["address.eth"; "missing.key"; "address.eth"] =
  records Sample.service "alice.bit" ["missing.key"; "address.eth"].
Proof.
  apply (records_keys_as_set Sample.service "alice.bit").
  intros k. simpl. tauto.
Defined.

Lemma records_agrees_with_record_witness :
  exists m,
    records Sample.service "alice.bit" ["address.eth"; "custom_key.note"] = Ok m /\
    record Sample.service "alice.bit" "address.eth" = Ok (VString "0xa11ce") /\
    m !! "address.eth" = Some (VString "0xa11ce").
Proof.
  destruct (records_agrees_with_record Sample.service "alice.bit"
              ["address.eth"; "custom_key.note"] Sample.resolved "address.eth"
              eq_refl (or_introl eq_refl) eq_refl eq_refl)
    as (m & Hm & [(v & Hrecord & _ & Hbound)|[Hrecord _]]).
  - exists m. split; [exact Hm|].
    assert (Hv : v = "0xa11ce").
    { assert (Hok : Ok (VString v) = Ok (VString "0xa11ce"))
        by (rewrite <- Hrecord; reflexivity).
      now injection Hok. }
    subst v. split; [exact Hrecord|exact Hbound].
  - exfalso. assert (Hok : record Sample.service "alice.bit" "address.eth" =
                           Ok (VString "0xa11ce")) by reflexivity.
    rewrite Hok in Hrecord. discriminate Hrecord.
Defined.

Lemma records_upper_key_witness :
  JsString.has_upper "address.ETH" = true /\
  exists m,
    records Sample.service "alice.bit" ["address.ETH"] = Ok m /\
    m !! "address.ETH" = Some (VString EmptyString).
Proof.
  split; [reflexivity|].
  exact (records_upper_key Sample.service "alice.bit" ["address.ETH"] _ "address.ETH"
           eq_refl (or_introl eq_refl) eq_refl eq_refl).
Defined.



Lemma reverse_unsupported_currency_witness :
  reverse Sample.service "0xa11ce" "eth" =
    Throw (Error "Das does not support any chain other than CKB and ETH").
Proof.
  apply (reverse_unsupported_currency Sample.service "0xa11ce" "eth"); discriminate.
Defined.
